(** * Funday: the grid board of [GridRealm] and its drag controller

    A shallow embedding of the placement logic of [src/views/GridRealm.tsx]
    (scene build, pointer-down / pointer-move / pointer-up handlers) and of
    [handleAssetMove] in [src/App.tsx], followed by the portfolio figures of
    [OracleDeck] and [WorldMap] and the oracle service of
    [src/services/geminiService.ts].

    Conventions of the embedding.
    - A finite JavaScript number is an exact rational.  The two fields of
      a stored [gridPosition] are numbers of any kind, whole or not ([Qc],
      on which [===] is equality); an index or a cell that a handler
      computes with [Math.floor] is a [Z]; a world-space coordinate is a
      [Q] and [Math.floor] is [Qfloor].  Every world coordinate the
      handlers compute from a whole index is a small dyadic rational, which
      binary64 holds exactly; on an arbitrary pointer position the rounding
      of binary64 can change which integer the floor gives, never that the
      clamp is applied to an integer.  Statements that depend on the exact
      floor of a pointer position, or on exact sums of amounts, carry a
      hypothesis under which binary64 computes without rounding
      ([exactCoord], [exactAmounts]).
    - A mesh is referred to by its index in [buildingsGroup.children]; the
      handlers mutate meshes in place, which is a list update at that index.
    - The result of three.js ray casting is the payload of an event: the
      indices of the buildings hit, nearest first, and the point where the
      ray meets the drag plane (or nothing when it does not meet it).
    - [assetsRef.current] is the asset list held by [App]; a call of the
      [onAssetMove] callback is appended to a log. *)

From Stdlib Require Import ZArith QArith Qcanon Qround Qminmax String List Bool Lia Lqa.
From Stdlib Require Import Sorted Permutation.
From stdpp Require Import base list.
Import ListNotations.

Local Open Scope Z_scope.

(** ** Data model ([types.ts]) *)

Inductive AssetType : Set :=
  | REAL_ESTATE | STOCK | BOND | CASH | CRYPTO | PRIVATE_EQUITY.

(** [gridPosition?: { x: number; y: number }], 1-based.  The two fields
    hold any finite number, whole or not; a number is kept in lowest terms,
    so that [===] on numbers is equality. *)
Record GridPosition : Set := { grid_x : Qc; grid_y : Qc }.

(** A cell of whole coordinates, 1-based: the pair [gx], [gy] (or
    [targetX], [targetY]) a handler computes with [Math.floor]. *)
Record Cell : Set := { pos_x : Z; pos_y : Z }.

(** The object literal [{ x: gx, y: gy }] made of such a pair. *)
Definition atCell (c : Cell) : GridPosition :=
  {| grid_x := Q2Qc (inject_Z (pos_x c)); grid_y := Q2Qc (inject_Z (pos_y c)) |}.

(** The fields of [Asset] the board reads; [region], [description], [roi]
    and [risk] are only shown in the tooltip and are carried along
    unchanged by the spread in [handleAssetMove]. *)
Record Asset : Set := {
  id : string;
  name : string;
  type : AssetType;
  value : Q;
  gridPosition : option GridPosition
}.

Record Vector3 : Set := { vec_x : Q; vec_y : Q; vec_z : Q }.

(** [building.userData] *)
Record UserData : Set := {
  assetId : string;
  originalColor : Z;
  gridX : Q;
  gridY : Q;
  originalPos : Vector3
}.

(** A building mesh: its position and the emissive part of its material. *)
Record Mesh : Set := {
  position : Vector3;
  scale_y : Q;
  emissive : Z;
  emissiveIntensity : Q;
  userData : UserData
}.

(** ** Board configuration *)

Definition GRID_SIZE : Z := 10.
Definition CELL_SIZE : Z := 4.

Definition getAssetColor (t : AssetType) : Z :=
  match t with
  | STOCK => 0x3b82f6
  | REAL_ESTATE => 0xf59e0b
  | BOND => 0x10b981
  | CRYPTO => 0xa855f7
  | PRIVATE_EQUITY => 0xf43f5e
  | CASH => 0x64748b
  end.

(** ** Grid mapper

    The source has no named conversion functions: the three expressions
    below are written out in the scene build and in both drag handlers. *)

(** [Math.floor((w / CELL_SIZE) + GRID_SIZE/2)]: the 0-based index of the
    cell that holds world coordinate [w], not yet clamped. *)
Definition rawGrid (w : Q) : Z :=
  Qfloor (w / inject_Z CELL_SIZE + inject_Z GRID_SIZE / 2)%Q.

(** [Math.max(0, Math.min(GRID_SIZE - 1, raw))] *)
Definition clampGrid (raw : Z) : Z :=
  Z.max 0 (Z.min (GRID_SIZE - 1) raw).

(** [(g - GRID_SIZE / 2 + 0.5) * CELL_SIZE]: the centre of 0-based index
    [g].  The move handler applies it to a clamped floor; the scene build
    applies it to a number that is whole only if the stored cell is. *)
Definition snapCoord (g : Q) : Q :=
  ((g - inject_Z GRID_SIZE / 2 + 0.5) * inject_Z CELL_SIZE)%Q.

(** [a < b] on finite numbers. *)
Definition Qltb (a b : Q) : bool := negb (Qle_bool b a).

(** The clamp of the scene build, written with two [if] per axis:
    [if (g < 0) g = 0; if (g >= GRID_SIZE) g = GRID_SIZE - 1;] *)
Definition clampBuild (g : Q) : Q :=
  let g1 := if Qltb g 0 then 0%Q else g in
  if Qle_bool (inject_Z GRID_SIZE) g1 then (inject_Z GRID_SIZE - 1)%Q else g1.

(** World point to 1-based cell, as [onPointerMove] computes
    [targetX], [targetY] (lines 258-263 and 275-276). *)
Definition worldToCell (x z : Q) : Cell :=
  {| pos_x := clampGrid (rawGrid x) + 1; pos_y := clampGrid (rawGrid z) + 1 |}.

(** 1-based cell to the world point of its centre: [gx = col - 1] followed
    by the snap expression (lines 142-153 and 265-266). *)
Definition cellToWorld (c : Cell) : Q * Q :=
  (snapCoord (inject_Z (pos_x c - 1)), snapCoord (inject_Z (pos_y c - 1))).

(** The cell [onPointerUp] derives from a mesh position (lines 348-353):
    the same floor, plus one, with no clamp. *)
Definition dropCell (m : Mesh) : Cell :=
  {| pos_x := rawGrid (vec_x (position m)) + 1;
     pos_y := rawGrid (vec_z (position m)) + 1 |}.

Definition inGrid (c : Cell) : Prop :=
  1 <= pos_x c <= GRID_SIZE /\ 1 <= pos_y c <= GRID_SIZE.

(** ** Collision validator

    The predicate given to [assetsRef.current.some] in [onPointerMove]
    (lines 278-283) and, with the same text, in [onPointerUp]
    (lines 356-361). *)
Definition collides (excluding : string) (targetX targetY : Z) (a : Asset) : bool :=
  negb (String.eqb (id a) excluding)
  && match gridPosition a with
     | Some p => Qeq_bool (grid_x p) (inject_Z targetX)
                 && Qeq_bool (grid_y p) (inject_Z targetY)
     | None => false
     end.

Definition isOccupied (assets : list Asset) (excluding : string)
    (targetX targetY : Z) : bool :=
  existsb (collides excluding targetX targetY) assets.

(** ** The asset store of [App] *)

Definition withGridPosition (a : Asset) (newPos : GridPosition) : Asset :=
  {| id := id a; name := name a; type := type a; value := value a;
     gridPosition := Some newPos |}.

(** [prevAssets.map(asset => asset.id === id ? {...asset, gridPosition: newPos} : asset)] *)
Definition handleAssetMove (i : string) (newPos : GridPosition)
    (prevAssets : list Asset) : list Asset :=
  map (fun asset => if String.eqb (id asset) i
                    then withGridPosition asset newPos
                    else asset) prevAssets.

(** The placement table read off the store: the explicit cell of the first
    entity that carries the identifier. *)
Definition placementOf (assets : list Asset) (i : string)
    : option GridPosition :=
  match find (fun a => String.eqb (id a) i) assets with
  | Some a => gridPosition a
  | None => None
  end.

(** No two entities with different identifiers hold the same explicit cell. *)
Definition noDoubleBooking (assets : list Asset) : Prop :=
  forall a b p, In a assets -> In b assets -> id a <> id b ->
    gridPosition a = Some p -> gridPosition b = Some p -> False.

(** [p.x === q.x && p.y === q.y] *)
Definition sameCell (p q : GridPosition) : bool :=
  Qeq_bool (grid_x p) (grid_x q) && Qeq_bool (grid_y p) (grid_y q).

(** The same property as a check that runs: no entity with an explicit cell
    finds that cell held by an entity of another identifier. *)
Definition bookedTwice (assets : list Asset) : bool :=
  existsb (fun a =>
    match gridPosition a with
    | Some p =>
      existsb (fun b => negb (String.eqb (id b) (id a))
                        && match gridPosition b with
                           | Some q => sameCell q p
                           | None => false
                           end) assets
    | None => false
    end) assets.

(** ** The scene and the closure state of the effect in [GridRealm] *)

Record Realm : Set := {
  buildings : list Mesh;               (* buildingsGroup.children *)
  highlight_visible : bool;            (* highlightMesh.visible *)
  highlight_position : Vector3;        (* highlightMesh.position *)
  highlight_color : Z;                 (* highlightMesh.material.color *)
  planeIntersectPoint : Vector3;
  isDragging : bool;
  draggedObject : option nat;
  hoveredMesh : option nat;
  controls_enabled : bool;
  controls_autoRotate : bool;
  isDraggingState : bool;              (* React state of the component *)
  hoveredAsset : option Asset          (* React state of the component *)
}.

(** JavaScript truthiness of a string: every string but the empty one. *)
Definition truthy (s : string) : bool :=
  match s with EmptyString => false | String _ _ => true end.

Definition setPosition (p : Vector3) (m : Mesh) : Mesh :=
  {| position := p; scale_y := scale_y m; emissive := emissive m;
     emissiveIntensity := emissiveIntensity m; userData := userData m |}.

Definition setEmissive (hex : Z) (m : Mesh) : Mesh :=
  {| position := position m; scale_y := scale_y m; emissive := hex;
     emissiveIntensity := emissiveIntensity m; userData := userData m |}.

Definition setEmissiveIntensity (k : Q) (m : Mesh) : Mesh :=
  {| position := position m; scale_y := scale_y m; emissive := emissive m;
     emissiveIntensity := k; userData := userData m |}.

Definition setOriginalPos (p : Vector3) (m : Mesh) : Mesh :=
  {| position := position m; scale_y := scale_y m; emissive := emissive m;
     emissiveIntensity := emissiveIntensity m;
     userData := {| assetId := assetId (userData m);
                    originalColor := originalColor (userData m);
                    gridX := gridX (userData m);
                    gridY := gridY (userData m);
                    originalPos := p |} |}.

(** [object.position.y += 1] *)
Definition liftUp (m : Mesh) : Mesh :=
  setPosition {| vec_x := vec_x (position m);
                 vec_y := (vec_y (position m) + 1)%Q;
                 vec_z := vec_z (position m) |} m.

Section Scene.

(** [Math.log10], used only for the height of a building. *)
Variable log10 : Q -> Q.

(** [Math.max(1.5, Math.min(12, Math.log10(asset.value) * 2 - 6))] *)
Definition buildingHeight (a : Asset) : Q :=
  Qmax 1.5 (Qmin 12 (log10 (value a) * 2 - 6))%Q.

(** The body of [assets.forEach((asset, index) => ...)] (lines 137-191).
    A new material has a black emissive colour of intensity 1. *)
Definition buildMesh (index : nat) (asset : Asset) : Mesh :=
  let gx0 := match gridPosition asset with
             | Some p => (grid_x p - 1)%Q
             | None => inject_Z (Z.of_nat index mod GRID_SIZE)
             end in
  let gz0 := match gridPosition asset with
             | Some p => (grid_y p - 1)%Q
             | None => inject_Z (Z.of_nat index / GRID_SIZE)
             end in
  let gx := clampBuild gx0 in
  let gz := clampBuild gz0 in
  let x := snapCoord gx in
  let z := snapCoord gz in
  let height := buildingHeight asset in
  let color := getAssetColor (type asset) in
  {| position := {| vec_x := x; vec_y := (height / 2)%Q; vec_z := z |};
     scale_y := height;
     emissive := 0x000000;
     emissiveIntensity := 1;
     userData := {| assetId := id asset;
                    originalColor := color;
                    gridX := (gx + 1)%Q;
                    gridY := (gz + 1)%Q;
                    originalPos := {| vec_x := x; vec_y := (height / 2)%Q; vec_z := z |} |} |}.

(** One run of the effect: a new scene is built from [assets] and the
    closure variables start afresh; the two React states of the component
    survive the run. *)
Definition effect (assets : list Asset) (dragging : bool)
    (hovered : option Asset) : Realm :=
  {| buildings := imap buildMesh assets;
     highlight_visible := false;
     highlight_position := {| vec_x := 0; vec_y := 0.05; vec_z := 0 |};
     highlight_color := 0x06b6d4;
     planeIntersectPoint := {| vec_x := 0; vec_y := 0; vec_z := 0 |};
     isDragging := false;
     draggedObject := None;
     hoveredMesh := None;
     controls_enabled := true;
     controls_autoRotate := true;
     isDraggingState := dragging;
     hoveredAsset := hovered |}.

End Scene.

(** ** Pointer handlers *)

(** [onPointerDown] (lines 212-240).  [intersects] lists the top-level
    buildings the ray meets, nearest first. *)
Definition onPointerDown (intersects : list nat) (r : Realm) : Realm :=
  match intersects with
  | [] => r
  | i :: _ =>
    match buildings r !! i with
    | None => r
    | Some object =>
      if truthy (assetId (userData object)) then
        {| buildings :=
             <[i := liftUp (setEmissiveIntensity 1 (setEmissive 0xffffff object))]>
               (buildings r);
           highlight_visible := true;
           highlight_position := highlight_position r;
           highlight_color := highlight_color r;
           planeIntersectPoint := planeIntersectPoint r;
           isDragging := true;
           draggedObject := Some i;
           hoveredMesh := hoveredMesh r;
           controls_enabled := false;
           controls_autoRotate := controls_autoRotate r;
           isDraggingState := true;
           hoveredAsset := hoveredAsset r |}
      else r
    end
  end.

(** The drag branch of [onPointerMove] (lines 248-289) for dragged mesh
    [object] at index [i]. *)
Definition dragTo (assetsRef : list Asset) (planeHit : option Vector3)
    (i : nat) (object : Mesh) (r : Realm) : Realm :=
  let point := match planeHit with
               | Some p => p
               | None => planeIntersectPoint r
               end in
  let rawGx := rawGrid (vec_x point) in
  let rawGz := rawGrid (vec_z point) in
  let gx := clampGrid rawGx in
  let gz := clampGrid rawGz in
  let snapX := snapCoord (inject_Z gx) in
  let snapZ := snapCoord (inject_Z gz) in
  let targetX := gx + 1 in
  let targetY := gz + 1 in
  let occupied :=
    isOccupied assetsRef (assetId (userData object)) targetX targetY in
  {| buildings :=
       <[i := setPosition
                {| vec_x := snapX;
                   vec_y := (vec_y (originalPos (userData object)) + 1)%Q;
                   vec_z := snapZ |} object]> (buildings r);
     highlight_visible := highlight_visible r;
     highlight_position := {| vec_x := snapX; vec_y := 0.05; vec_z := snapZ |};
     highlight_color := if occupied then 0xef4444 else 0x06b6d4;
     planeIntersectPoint := point;
     isDragging := isDragging r;
     draggedObject := draggedObject r;
     hoveredMesh := hoveredMesh r;
     controls_enabled := controls_enabled r;
     controls_autoRotate := controls_autoRotate r;
     isDraggingState := isDraggingState r;
     hoveredAsset := hoveredAsset r |}.

(** Meshes after the emissive colour of the hovered one is put back, unless
    it is the dragged one. *)
Definition restoreHovered (r : Realm) : list Mesh :=
  match hoveredMesh r with
  | Some h =>
    if decide (Some h = draggedObject r) then buildings r
    else alter (setEmissive 0x000000) h (buildings r)
  | None => buildings r
  end.

(** The hover branch of [onPointerMove] (lines 291-342). *)
Definition hover (assetsRef : list Asset) (intersects : list nat)
    (r : Realm) : Realm :=
  match intersects with
  | i :: _ =>
    match buildings r !! i with
    | None => r
    | Some object =>
      if truthy (assetId (userData object)) then
        if decide (hoveredMesh r = Some i) then
          {| buildings := buildings r;
             highlight_visible := highlight_visible r;
             highlight_position := highlight_position r;
             highlight_color := highlight_color r;
             planeIntersectPoint := planeIntersectPoint r;
             isDragging := isDragging r;
             draggedObject := draggedObject r;
             hoveredMesh := hoveredMesh r;
             controls_enabled := controls_enabled r;
             controls_autoRotate := false;
             isDraggingState := isDraggingState r;
             hoveredAsset := hoveredAsset r |}
        else
          {| buildings :=
               (if decide (Some i = draggedObject r) then restoreHovered r
                else alter (fun m => setEmissiveIntensity 0.5 (setEmissive 0x222222 m))
                       i (restoreHovered r));
             highlight_visible := highlight_visible r;
             highlight_position := highlight_position r;
             highlight_color := highlight_color r;
             planeIntersectPoint := planeIntersectPoint r;
             isDragging := isDragging r;
             draggedObject := draggedObject r;
             hoveredMesh := Some i;
             controls_enabled := controls_enabled r;
             controls_autoRotate := false;
             isDraggingState := isDraggingState r;
             hoveredAsset :=
               find (fun a => String.eqb (id a) (assetId (userData object)))
                 assetsRef |}
      else r
    end
  | [] =>
    {| buildings := restoreHovered r;
       highlight_visible := highlight_visible r;
       highlight_position := highlight_position r;
       highlight_color := highlight_color r;
       planeIntersectPoint := planeIntersectPoint r;
       isDragging := isDragging r;
       draggedObject := draggedObject r;
       hoveredMesh := None;
       controls_enabled := controls_enabled r;
       controls_autoRotate := true;
       isDraggingState := isDraggingState r;
       hoveredAsset := match hoveredMesh r with
                       | Some _ => None
                       | None => hoveredAsset r
                       end |}
  end.

(** The mesh the closure variable [draggedObject] refers to, when
    [isDragging && draggedObject] holds. *)
Definition session (r : Realm) : option (nat * Mesh) :=
  if isDragging r then
    match draggedObject r with
    | Some i =>
      match buildings r !! i with
      | Some object => Some (i, object)
      | None => None
      end
    | None => None
    end
  else None.

(** [onPointerMove] (lines 242-343). *)
Definition onPointerMove (assetsRef : list Asset) (planeHit : option Vector3)
    (intersects : list nat) (r : Realm) : Realm :=
  match session r with
  | Some (i, object) => dragTo assetsRef planeHit i object r
  | None => hover assetsRef intersects r
  end.

(** [onPointerUp] (lines 345-387).  The second component is the call of
    [onAssetMove] the handler makes, if any; [onAssetMove] tells whether
    the optional callback was given to the component. *)
Definition onPointerUp (onAssetMove : bool) (assetsRef : list Asset)
    (r : Realm) : Realm * option (string * Cell) :=
  match session r with
  | None => (r, None)
  | Some (i, object) =>
    let currentX := vec_x (position object) in
    let currentZ := vec_z (position object) in
    let gx := rawGrid currentX + 1 in
    let gy := rawGrid currentZ + 1 in
    let occupied := isOccupied assetsRef (assetId (userData object)) gx gy in
    let dropped :=
      if occupied then setPosition (originalPos (userData object)) object
      else setOriginalPos
             {| vec_x := currentX;
                vec_y := vec_y (originalPos (userData object));
                vec_z := currentZ |} object in
    let call :=
      if occupied then None
      else if onAssetMove
           then Some (assetId (userData object), {| pos_x := gx; pos_y := gy |})
           else None in
    ({| buildings :=
          <[i := setEmissiveIntensity 0.5 (setEmissive 0x222222 dropped)]>
            (buildings r);
        highlight_visible := false;
        highlight_position := highlight_position r;
        highlight_color := highlight_color r;
        planeIntersectPoint := planeIntersectPoint r;
        isDragging := false;
        draggedObject := None;
        hoveredMesh := hoveredMesh r;
        controls_enabled := true;
        controls_autoRotate := controls_autoRotate r;
        isDraggingState := false;
        hoveredAsset := hoveredAsset r |}, call)
  end.

(** ** The application: store, board and the log of commits *)

Record World : Set := {
  assets : list Asset;                       (* the state of [App] *)
  realm : Realm;
  moves : list (string * Cell)       (* calls of [onAssetMove] so far *)
}.

Inductive Event : Set :=
  | MouseDown (intersects : list nat)
  | MouseMove (planeHit : option Vector3) (intersects : list nat)
  | MouseUp
  | Render.

Section App.

Variable log10 : Q -> Q.

(** [App] mounts [GridRealm] with [onAssetMove = handleAssetMove]. *)
Definition mount (initial : list Asset) : World :=
  {| assets := initial; realm := effect log10 initial false None; moves := [] |}.

(** One event.  A commit goes through [setAssets], after which React renders
    [App] again and the effect of [GridRealm] runs on the new list; [Render]
    is any other render of [App] (its callback is a new function on every
    render, so the effect runs again). *)
Definition step (e : Event) (w : World) : World :=
  match e with
  | MouseDown intersects =>
    {| assets := assets w;
       realm := onPointerDown intersects (realm w);
       moves := moves w |}
  | MouseMove planeHit intersects =>
    {| assets := assets w;
       realm := onPointerMove (assets w) planeHit intersects (realm w);
       moves := moves w |}
  | MouseUp =>
    match onPointerUp true (assets w) (realm w) with
    | (r, Some (i, newPos)) =>
      let next := handleAssetMove i (atCell newPos) (assets w) in
      {| assets := next;
         realm := effect log10 next (isDraggingState r) (hoveredAsset r);
         moves := moves w ++ [(i, newPos)] |}
    | (r, None) =>
      {| assets := assets w; realm := r; moves := moves w |}
    end
  | Render =>
    {| assets := assets w;
       realm := effect log10 (assets w) (isDraggingState (realm w))
                  (hoveredAsset (realm w));
       moves := moves w |}
  end.

Definition run (events : list Event) (w : World) : World :=
  fold_left (fun acc e => step e acc) events w.

End App.

(** The building a pointer-down picks: the nearest one the ray meets, if it
    carries a usable [assetId] (the two tests of lines 223-225). *)
Definition picked (intersects : list nat) (r : Realm) : option (nat * Mesh) :=
  match intersects with
  | [] => None
  | i :: _ =>
    match buildings r !! i with
    | Some object =>
      if truthy (assetId (userData object)) then Some (i, object) else None
    | None => None
    end
  end.

(** Cell [c] is the explicit cell of an entity other than [excluding]. *)
Definition heldByOther (l : list Asset) (excluding : string)
    (c : Cell) : Prop :=
  exists a, In a l /\ id a <> excluding /\ gridPosition a = Some (atCell c).

(** ** The scenario of the specification

    A 10 x 10 board with E1 at cell (1,1) and E2 at cell (2,1); both are
    worth 1000, whose decimal logarithm is 3. *)

Definition entityE1 : Asset :=
  {| id := "E1"; name := "first"; type := STOCK; value := 1000;
     gridPosition := Some (atCell {| pos_x := 1; pos_y := 1 |}) |}.

Definition entityE2 : Asset :=
  {| id := "E2"; name := "second"; type := BOND; value := 1000;
     gridPosition := Some (atCell {| pos_x := 2; pos_y := 1 |}) |}.

(** An entity without an explicit cell. *)
Definition entityU : Asset :=
  {| id := "U"; name := "unplaced"; type := CASH; value := 1000;
     gridPosition := None |}.

Definition log10_stub (_ : Q) : Q := 3.

Definition planePoint (x z : Q) : option Vector3 :=
  Some {| vec_x := x; vec_y := 0; vec_z := z |}.

(** E1 picked up on the scenario board. *)
Definition scenarioPicked : World :=
  run log10_stub [MouseDown [0%nat]] (mount log10_stub [entityE1; entityE2]).

(** E1 picked up and dragged over the cell of E2. *)
Definition scenarioOverE2 : World :=
  run log10_stub [MouseMove (planePoint (-13) (-17)) []] scenarioPicked.

(** E1 picked up and dragged over the empty cell (5,5). *)
Definition scenarioOverFree : World :=
  run log10_stub [MouseMove (planePoint (-1) (-3)) []] scenarioPicked.

(** E1 picked up, after which the store lost E1. *)
Definition scenarioStale : World :=
  {| assets := [entityE2]; realm := realm scenarioPicked; moves := [] |}.

(** The unplaced entity picked up on a board of its own. *)
Definition scenarioUnplaced : World :=
  run log10_stub [MouseDown [0%nat]] (mount log10_stub [entityU]).

(** An entity whose explicit cell (12, 0) lies outside the grid on both
    axes. *)
Definition entityFar : Asset :=
  {| id := "F"; name := "far out"; type := REAL_ESTATE; value := 1000;
     gridPosition := Some (atCell {| pos_x := 12; pos_y := 0 |}) |}.

(** An entity whose explicit cell is (10.5, 1): a stored [x] that is not a
    whole number. *)
Definition entityH : Asset :=
  {| id := "H"; name := "halfway"; type := CRYPTO; value := 1000;
     gridPosition := Some {| grid_x := Q2Qc 10.5; grid_y := Q2Qc 1 |} |}.

(** ** Invariants of the board *)

(** [const boardWidth = GRID_SIZE * CELL_SIZE] (line 106): the floor plane
    and the grid lines span [boardWidth] world units, centred on the
    origin. *)
Definition boardWidth : Z := GRID_SIZE * CELL_SIZE.

(** World coordinate [w] lies on the board along one axis. *)
Definition onBoard (w : Q) : Prop :=
  (- (inject_Z boardWidth / 2) <= w /\ w < inject_Z boardWidth / 2)%Q.


(** The explicit cell, where there is one, has whole coordinates. *)
Definition wholePlaced (a : Asset) : Prop :=
  match gridPosition a with
  | Some p => exists c : Cell, p = atCell c
  | None => True
  end.

(** A stored coordinate from which the scene build stays on the board: the
    build clamps what is 11 or more and leaves alone what is less than
    that, so only [10.5 <= c < 11] gives a world coordinate of 20 or
    more. *)
Definition tame (c : Q) : Prop :=
  (c < inject_Z GRID_SIZE + (1 # 2) \/ inject_Z GRID_SIZE + 1 <= c)%Q.

Definition tamePlaced (a : Asset) : Prop :=
  match gridPosition a with
  | Some p => tame (grid_x p) /\ tame (grid_y p)
  | None => True
  end.

(** The horizontal part of [v] lies on the board. *)
Definition withinBoard (v : Vector3) : Prop :=
  onBoard (vec_x v) /\ onBoard (vec_z v).

(** A building stands on the board and so does its anchor. *)
Definition stands (m : Mesh) : Prop :=
  withinBoard (position m) /\ withinBoard (originalPos (userData m)).

Definition inGridMove (mv : string * Cell) : Prop := inGrid (snd mv).

(** Every building stands on the board, every logged commit names a cell of
    the grid, and the store holds no coordinate that would build off it. *)
Definition boardInv (w : World) : Prop :=
  Forall stands (buildings (realm w))
  /\ Forall inGridMove (moves w)
  /\ Forall tamePlaced (assets w).

(** ** Further vocabulary for the board *)

(** A world coordinate that the handlers take to its cell without
    rounding: a multiple of 2^-20 of magnitude at most 2^30, so that
    [w / CELL_SIZE + GRID_SIZE / 2] has fewer than 53 significant bits and
    binary64 holds it exactly. *)
Definition exactCoord (w : Q) : Prop :=
  exists k : Z, Z.abs k <= 2 ^ 50 /\ (w == inject_Z k / inject_Z (2 ^ 20))%Q.

(** An explicit cell, where there is one, lies within the grid: each of its
    coordinates is a number between 1 and [GRID_SIZE]. *)
Definition placedInGrid (a : Asset) : Prop :=
  match gridPosition a with
  | Some p => (1 <= grid_x p <= inject_Z GRID_SIZE
               /\ 1 <= grid_y p <= inject_Z GRID_SIZE)%Q
  | None => True
  end.

(** An entity with its placement struck out: what a commit leaves alone. *)
Definition sansPosition (a : Asset) : Asset :=
  {| id := id a; name := name a; type := type a; value := value a;
     gridPosition := None |}.

(** Events that cannot start a drag and do not rebuild the scene. *)
Definition isPassive (e : Event) : bool :=
  match e with
  | MouseMove _ _ | MouseUp => true
  | MouseDown _ | Render => false
  end.

(** One whole gesture: press, any number of moves, release. *)
Definition gesture (hits : list nat)
    (path : list (option Vector3 * list nat)) : list Event :=
  MouseDown hits :: map (fun m => MouseMove (fst m) (snd m)) path ++ [MouseUp].

(** [INITIAL_ASSETS] of [constants.ts], the state [App] starts from. *)
Definition INITIAL_ASSETS : list Asset :=
  [ {| id := "a1"; name := "Downtown Penthouse"; type := REAL_ESTATE;
       value := 1200000;
       gridPosition := Some (atCell {| pos_x := 1; pos_y := 1 |}) |};
    {| id := "a2"; name := "TechGiant Corp"; type := STOCK;
       value := 450000;
       gridPosition := Some (atCell {| pos_x := 2; pos_y := 1 |}) |};
    {| id := "a3"; name := "Green Energy ETF"; type := STOCK;
       value := 150000;
       gridPosition := Some (atCell {| pos_x := 3; pos_y := 1 |}) |};
    {| id := "a4"; name := "Asian Logistics Hub"; type := REAL_ESTATE;
       value := 2000000;
       gridPosition := Some (atCell {| pos_x := 1; pos_y := 2 |}) |};
    {| id := "a5"; name := "Gov Bonds 10Y"; type := BOND;
       value := 300000;
       gridPosition := Some (atCell {| pos_x := 2; pos_y := 2 |}) |};
    {| id := "a6"; name := "Bitcoin Cold Storage"; type := CRYPTO;
       value := 250000;
       gridPosition := Some (atCell {| pos_x := 3; pos_y := 2 |}) |};
    {| id := "a7"; name := "StartUp: AI Chips"; type := PRIVATE_EQUITY;
       value := 100000;
       gridPosition := Some (atCell {| pos_x := 4; pos_y := 1 |}) |} ].

(** The user data of the scene is that of a scene built from the store as
    it is now. *)
Definition inStep (log10 : Q -> Q) (w : World) : Prop :=
  map userData (buildings (realm w))
  = map userData (imap (buildMesh log10) (assets w)).

(** A commit that names a usable identifier. *)
Definition namedMove (mv : string * Cell) : Prop :=
  truthy (fst mv) = true.

(** The dragged building, when there is one, carries a usable identifier. *)
Definition namedSession (r : Realm) : Prop :=
  forall k m, session r = Some (k, m) -> truthy (assetId (userData m)) = true.

(** Along a trace from [initial]: sessions and commits are named, and the
    entries of [initial] without a usable identifier are where they were. *)
Definition unnamedKept (initial : list Asset) (w : World) : Prop :=
  namedSession (realm w)
  /\ Forall namedMove (moves w)
  /\ forall k a, initial !! k = Some a -> truthy (id a) = false ->
       assets w !! k = Some a.

(** ** The dashboards: [OracleDeck] and [WorldMap]

    Amounts and risk scores are exact rationals.  Binary64 adds whole
    amounts whose total stays below 2^53 without rounding; a statement
    that compares sums taken in different groupings asks for such amounts
    ([exactAmounts]). *)

Inductive Region : Set :=
  | NORTH_AMERICA | ASIA | EUROPE | EMERGING_MARKETS | GLOBAL.

(** The whole [Asset] of [types.ts]: the fields the board reads, and the
    ones only the dashboards read. *)
Record Holding : Set := {
  held : Asset;
  region : Region;
  description : string;
  roi : Q;
  risk : Q
}.

(** [a.value] *)
Definition worth (a : Holding) : Q := value (held a).

#[global] Instance AssetType_eq_dec : EqDecision AssetType.
Proof. solve_decision. Defined.

#[global] Instance Region_eq_dec : EqDecision Region.
Proof. solve_decision. Defined.

(** [assets.reduce((acc, curr) => acc + curr.value, 0)]; [WorldMap] sums a
    regional group with the same reduce. *)
Definition totalValue (assets : list Holding) : Q :=
  fold_left (fun acc curr => (acc + worth curr)%Q) assets 0%Q.

(** [c || 0] for a count that may be missing. *)
Definition orZero (c : option Q) : Q :=
  match c with
  | Some c => if Qeq_bool c 0 then 0%Q else c
  | None => 0%Q
  end.

Section Allocation.

Context {K : Type} `{EqDecision K}.

(** [counts[k]] on an object whose keys are kept in the order they were
    first written. *)
Fixpoint lookupCount (k : K) (counts : list (K * Q)) : option Q :=
  match counts with
  | [] => None
  | (k', c) :: rest => if decide (k' = k) then Some c else lookupCount k rest
  end.

(** [counts[k] = v]: an existing key keeps its place, a new one goes last. *)
Fixpoint assign (k : K) (v : Q) (counts : list (K * Q)) : list (K * Q) :=
  match counts with
  | [] => [(k, v)]
  | (k', c) :: rest =>
    if decide (k' = k) then (k', v) :: rest else (k', c) :: assign k v rest
  end.

(** [assets.forEach(a => counts[key(a)] = (counts[key(a)] || 0) + a.value)]
    followed by [Object.entries(counts)]. *)
Definition tally (key : Holding -> K) (assets : list Holding) : list (K * Q) :=
  fold_left
    (fun counts a =>
       assign (key a) (orZero (lookupCount (key a) counts) + worth a)%Q counts)
    assets [].

(** [.sort((a, b) => b[1] - a[1])]: descending by amount; the sort of an
    array is stable, so entries with equal amounts keep their order. *)
Fixpoint insertDesc (e : K * Q) (sorted : list (K * Q)) : list (K * Q) :=
  match sorted with
  | [] => [e]
  | e' :: rest =>
    if Qle_bool (snd e') (snd e) then e :: e' :: rest
    else e' :: insertDesc e rest
  end.

Definition sortDesc (entries : list (K * Q)) : list (K * Q) :=
  fold_right insertDesc [] entries.

Record Share : Type := {
  share_key : K;
  share_value : Q;
  percentage : Q
}.

(** [allocationByType] and [allocationByRegion] of [OracleDeck], which
    differ in the key only.  Where the total is zero JavaScript divides to
    [NaN] or [Infinity]; the percentages mean something only above that. *)
Definition allocationBy (key : Holding -> K) (assets : list Holding)
    : list Share :=
  map (fun e => {| share_key := fst e; share_value := snd e;
                   percentage := (snd e / totalValue assets)%Q |})
    (sortDesc (tally key assets)).

End Allocation.

Definition allocationByType : list Holding -> list Share :=
  allocationBy (fun a => type (held a)).

Definition allocationByRegion : list Holding -> list Share :=
  allocationBy region.

(** [weightedRisk] of [OracleDeck]. *)
Definition weightedRisk (assets : list Holding) : Q :=
  if Qeq_bool (totalValue assets) 0 then 0%Q
  else
    let totalRiskScore :=
      fold_left (fun acc a => (acc + worth a * risk a)%Q) assets 0%Q in
    (totalRiskScore / totalValue assets)%Q.

Record RiskTiers : Set := { low : Q; med : Q; high : Q }.

(** The three amounts of [riskDistribution], in the order of the array it
    returns. *)
Definition riskDistribution (assets : list Holding) : RiskTiers :=
  fold_left
    (fun dist a =>
       if Qle_bool (risk a) 3
       then {| low := (low dist + worth a)%Q; med := med dist; high := high dist |}
       else if Qle_bool (risk a) 7
       then {| low := low dist; med := (med dist + worth a)%Q; high := high dist |}
       else {| low := low dist; med := med dist; high := (high dist + worth a)%Q |})
    assets {| low := 0; med := 0; high := 0 |}.


(** [Object.values(Region)] *)
Definition regions : list Region :=
  [NORTH_AMERICA; ASIA; EUROPE; EMERGING_MARKETS; GLOBAL].

(** [assetsByRegion[region]] of [WorldMap]. *)
Definition assetsByRegion (assets : list Holding) (r : Region)
    : list Holding :=
  List.filter (fun a => bool_decide (region a = r)) assets.

(** The panels [WorldMap] renders: for every region that holds something,
    the region, its "Deployment" total and its cards. *)
Definition worldMapPanels (assets : list Holding)
    : list (Region * Q * list Holding) :=
  omap (fun r =>
          let regionAssets := assetsByRegion assets r in
          if Nat.eqb (length regionAssets) 0 then None
          else Some (r, totalValue regionAssets, regionAssets))
    regions.

(** Sum of a list of amounts. *)
Definition sumQ (amounts : list Q) : Q :=
  fold_right Qplus 0%Q amounts.

(** Every risk score is a whole number. *)
Definition wholeRisk (a : Holding) : Prop :=
  exists n : Z, (risk a == inject_Z n)%Q.

(** A whole amount that is not negative. *)
Definition wholeWorth (a : Holding) : Prop :=
  exists n : Z, 0 <= n /\ (worth a == inject_Z n)%Q.

(** Amounts that binary64 adds without rounding, in any grouping: whole,
    none negative, and with a total below 2^53. *)
Definition exactAmounts (assets : list Holding) : Prop :=
  Forall wholeWorth assets /\ (totalValue assets < inject_Z (2 ^ 53))%Q.

(** The order of [allocationBy]: no amount is followed by a larger one. *)
Definition descending {K : Type} : list (K * Q) -> Prop :=
  Sorted (fun e1 e2 => (snd e2 <= snd e1)%Q).

(** ** The oracle service ([geminiService.ts]) and its caller

    A call of [ai.models.generateContent] is an input of the model: how it
    settled.  The prompt, and with it the language, only reaches the
    service. *)

(** A promise that has settled. *)
Inductive Outcome (A : Type) : Type :=
  | Fulfilled (a : A)
  | Thrown (message : string).

Arguments Fulfilled {A} a.
Arguments Thrown {A} message.

(** [chunk.web] *)
Record WebChunk : Set := {
  web_title : option string;
  web_uri : option string
}.

Record GroundingChunk : Set := { web : option WebChunk }.

(** What is read of a response: [response.text] and
    [response.candidates?.[0]?.groundingMetadata?.groundingChunks]. *)
Record GenerateContentResponse : Set := {
  response_text : option string;
  groundingChunks : option (list GroundingChunk)
}.

Record SourceLink : Set := { title : string; uri : string }.

Record MacroAnalysisResult : Set := {
  result_text : string;
  sources : list SourceLink
}.

(** [s || fallback] for a string that may be undefined. *)
Definition orText (s : option string) (fallback : string) : string :=
  match s with
  | Some t => if truthy t then t else fallback
  | None => fallback
  end.

(** [getAiClient]: the client is the key it was made with. *)
Definition getAiClient (apiKey : option string) : Outcome string :=
  match apiKey with
  | Some key =>
    if truthy key then Fulfilled key
    else Thrown "API_KEY not found in environment variables"
  | None => Thrown "API_KEY not found in environment variables"
  end.

(** The loop over the grounding chunks in [analyzeMacroCycle]. *)
Definition extractSources (chunks : option (list GroundingChunk))
    : list SourceLink :=
  match chunks with
  | Some cs =>
    omap (fun chunk =>
            match web chunk with
            | Some w => Some {| title := orText (web_title w) "Source";
                                uri := orText (web_uri w) EmptyString |}
            | None => None
            end) cs
  | None => []
  end.

(** [analyzeMacroCycle]: [primary] is how the call with the search tool
    settled, [fallback] how the call without it settled, which is made only
    when the first one failed. *)
Definition analyzeMacroCycle (apiKey : option string)
    (primary fallback : Outcome GenerateContentResponse)
    : Outcome MacroAnalysisResult :=
  match getAiClient apiKey with
  | Thrown message => Thrown message
  | Fulfilled _ =>
    match primary with
    | Fulfilled response =>
      Fulfilled
        {| result_text :=
             orText (response_text response)
               "Unable to retrieve macro analysis.";
           sources := extractSources (groundingChunks response) |}
    | Thrown _ =>
      match fallback with
      | Fulfilled fallbackResponse =>
        Fulfilled
          {| result_text :=
               orText (response_text fallbackResponse)
                 "Analysis available (Offline Mode).";
             sources := [] |}
      | Thrown _ =>
        Fulfilled
          {| result_text :=
               "Error connecting to the Oracle. Please check your network or API Key.";
             sources := [] |}
      end
    end
  end.





(** [INITIAL_ASSETS] with the fields the dashboards read. *)
Definition INITIAL_HOLDINGS : list Holding :=
  zip_with
    (fun a rest =>
       match rest with
       | (r, d, yield, score) =>
         {| held := a; region := r; description := d; roi := yield;
            risk := score |}
       end)
    INITIAL_ASSETS
    [ (NORTH_AMERICA, "Luxury residential unit in the city core."%string,
       0.04%Q, 3%Q);
      (NORTH_AMERICA,
       "Major holdings in global technology infrastructure."%string,
       0.12%Q, 7%Q);
      (EUROPE, "Diversified renewable energy portfolio."%string, 0.08%Q, 5%Q);
      (ASIA, "Commercial warehouse distribution center."%string, 0.06%Q, 4%Q);
      (NORTH_AMERICA, "Safe haven treasury bonds."%string, 0.035%Q, 1%Q);
      (GLOBAL, "Digital gold reserve."%string, 0.25%Q, 9%Q);
      (ASIA, "Seed round investment in AI hardware."%string, 0.00%Q, 10%Q) ].

(** * Properties *)

(** ** Grid mapper *)

Lemma Qfloor_half (g : Z) : Qfloor (inject_Z g + (1 # 2))%Q = g.
Proof.
  unfold Qfloor, Qplus, inject_Z; cbn [Qnum Qden].
  symmetry. apply Z.div_unique with (r := 1); lia.
Qed.

(** The floor of the drag handlers undoes the snap on every index, clamped
    or not. *)
Lemma rawGrid_snapCoord (g : Z) : rawGrid (snapCoord (inject_Z g)) = g.
Proof.
  unfold rawGrid, snapCoord, GRID_SIZE, CELL_SIZE.
  rewrite <- (Qfloor_half g) at 2.
  apply Qfloor_comp. field.
Qed.

Lemma rawGrid_bounds (w : Q) :
  (inject_Z (rawGrid w) * 4 - 20 <= w /\ w < inject_Z (rawGrid w) * 4 - 16)%Q.
Proof.
  pose (q := (w / inject_Z CELL_SIZE + inject_Z GRID_SIZE / 2)%Q).
  pose proof (Qfloor_le q) as Hlo. pose proof (Qlt_floor q) as Hhi.
  rewrite inject_Z_plus in Hhi.
  change (Qfloor q) with (rawGrid w) in Hlo, Hhi.
  assert (q == w * (1 # 4) + 5)%Q as Hq
    by (subst q; unfold GRID_SIZE, CELL_SIZE; field).
  clearbody q. change (inject_Z 1) with 1%Q in Hhi. split; lra.
Qed.

Lemma snapCoord_value (g : Q) : (snapCoord g == g * 4 - 18)%Q.
Proof. unfold snapCoord, GRID_SIZE, CELL_SIZE. field. Qed.

Lemma onBoard_bounds (w : Q) : onBoard w <-> (-20 <= w /\ w < 20)%Q.
Proof.
  unfold onBoard, boardWidth, GRID_SIZE, CELL_SIZE.
  assert (inject_Z (10 * 4) / 2 == 20)%Q as -> by reflexivity.
  reflexivity.
Qed.

(** On the board the floor of the drag handlers is an index of the grid. *)
Lemma rawGrid_onBoard (w : Q) : onBoard w -> 0 <= rawGrid w <= GRID_SIZE - 1.
Proof.
  rewrite onBoard_bounds. intros [Hge Hlt].
  destruct (rawGrid_bounds w) as [Hlo Hhi].
  assert (inject_Z (-1) < inject_Z (rawGrid w))%Q as Hnn
    by (change (inject_Z (-1)) with (-1)%Q; lra).
  assert (inject_Z (rawGrid w) < inject_Z 10)%Q as Hsm
    by (change (inject_Z 10) with 10%Q; lra).
  rewrite <- Zlt_Qlt in Hnn, Hsm. unfold GRID_SIZE. lia.
Qed.

Lemma clampGrid_range (raw : Z) : 0 <= clampGrid raw <= GRID_SIZE - 1.
Proof. unfold clampGrid, GRID_SIZE. lia. Qed.

Lemma clampGrid_id (g : Z) : 0 <= g <= GRID_SIZE - 1 -> clampGrid g = g.
Proof. unfold clampGrid, GRID_SIZE. lia. Qed.

(** The centre of a clamped index lies on the board. *)
Lemma onBoard_snapCoord (raw : Z) :
  onBoard (snapCoord (inject_Z (clampGrid raw))).
Proof.
  pose proof (clampGrid_range raw) as [Hlo Hhi]. unfold GRID_SIZE in Hhi.
  rewrite Zle_Qle in Hlo, Hhi.
  change (inject_Z 0) with 0%Q in Hlo. change (inject_Z (10 - 1)) with 9%Q in Hhi.
  apply onBoard_bounds. rewrite snapCoord_value. split; lra.
Qed.

(** The two [if] of the scene build, case by case. *)
Lemma clampBuild_cases (g : Q) :
  ((g < 0)%Q /\ clampBuild g = 0%Q)
  \/ ((0 <= g)%Q /\ (g < inject_Z GRID_SIZE)%Q /\ clampBuild g = g)
  \/ ((inject_Z GRID_SIZE <= g)%Q
      /\ clampBuild g = (inject_Z GRID_SIZE - 1)%Q).
Proof.
  unfold clampBuild, Qltb.
  destruct (Qle_bool 0 g) eqn:H0; cbn [negb].
  - apply Qle_bool_iff in H0.
    destruct (Qle_bool (inject_Z GRID_SIZE) g) eqn:H1.
    + right; right. apply Qle_bool_iff in H1. auto.
    + right; left. split; [exact H0 |]. split; [| reflexivity].
      apply Qnot_le_lt. intros Hle. apply Qle_bool_iff in Hle. congruence.
  - left. split; [| reflexivity].
    apply Qnot_le_lt. intros Hle. apply Qle_bool_iff in Hle. congruence.
Qed.


(** The scene build stays on the board unless the index it is given falls
    in the half cell below [GRID_SIZE]. *)
Lemma onBoard_clampBuild (g : Q) :
  (g < inject_Z GRID_SIZE - (1 # 2) \/ inject_Z GRID_SIZE <= g)%Q ->
  onBoard (snapCoord (clampBuild g)).
Proof.
  intros Hg. apply onBoard_bounds. rewrite snapCoord_value.
  destruct (clampBuild_cases g) as [(H & ->) | [(H0 & H1 & ->) | (H & ->)]];
    unfold GRID_SIZE in *; change (inject_Z 10) with 10%Q in *.
  - split; lra.
  - destruct Hg as [Hg | Hg]; split; lra.
  - split; lra.
Qed.

(** The number a whole cell stores is the coordinate of the cell. *)
Lemma atCell_x (c : Cell) : (grid_x (atCell c) == inject_Z (pos_x c))%Q.
Proof. cbn [atCell grid_x Q2Qc this]. apply Qred_correct. Qed.

Lemma atCell_y (c : Cell) : (grid_y (atCell c) == inject_Z (pos_y c))%Q.
Proof. cbn [atCell grid_y Q2Qc this]. apply Qred_correct. Qed.

Lemma Qc_whole (q : Qc) (n : Z) : (q == inject_Z n)%Q <-> q = Q2Qc (inject_Z n).
Proof.
  split.
  - intros Hq. apply Qc_is_canon. cbn [Q2Qc this].
    now rewrite Qred_correct.
  - intros ->. cbn [Q2Qc this]. apply Qred_correct.
Qed.


Lemma worldToCell_inGrid (x z : Q) : inGrid (worldToCell x z).
Proof.
  unfold inGrid, worldToCell; cbn [pos_x pos_y].
  pose proof (clampGrid_range (rawGrid x)).
  pose proof (clampGrid_range (rawGrid z)).
  unfold GRID_SIZE in *. lia.
Qed.

(** C4 (round trip).  For every cell [(c, r)] with [1 <= c <= N] and
    [1 <= r <= N] ([N = 10], cell size 4), taking the cell to the world
    point of its centre, [(col - 1 - N/2 + 0.5) * cellSize] per axis, and
    that point back through divide, offset, floor and clamp gives [(c, r)]
    again. *)
Theorem worldToCell_cellToWorld (cell : Cell) :
  inGrid cell ->
  worldToCell (fst (cellToWorld cell)) (snd (cellToWorld cell)) = cell.
Proof.
  intros [Hx Hy]. destruct cell as [c r]; cbn [pos_x pos_y] in *.
  unfold worldToCell, cellToWorld; cbn [fst snd pos_x pos_y].
  rewrite !rawGrid_snapCoord.
  rewrite !clampGrid_id by (unfold GRID_SIZE in *; lia).
  f_equal; lia.
Qed.

Lemma worldToCell_cellToWorld_witness :
  inGrid {| pos_x := 7; pos_y := 10 |}
  /\ worldToCell (fst (cellToWorld {| pos_x := 7; pos_y := 10 |}))
       (snd (cellToWorld {| pos_x := 7; pos_y := 10 |}))
     = {| pos_x := 7; pos_y := 10 |}.
Proof.
  split.
  - unfold inGrid, GRID_SIZE; cbn; lia.
  - apply (worldToCell_cellToWorld {| pos_x := 7; pos_y := 10 |}).
    unfold inGrid, GRID_SIZE; cbn; lia.
Defined.

(** ** Collision validator *)

Lemma collides_spec (excluding : string) (targetX targetY : Z) (a : Asset) :
  collides excluding targetX targetY a = true
  <-> id a <> excluding
      /\ gridPosition a
         = Some (atCell {| pos_x := targetX; pos_y := targetY |}).
Proof.
  unfold collides. rewrite andb_true_iff, negb_true_iff, String.eqb_neq.
  destruct (gridPosition a) as [[px py] |]; cbn [grid_x grid_y].
  - rewrite andb_true_iff, !Qeq_bool_iff, !Qc_whole. split.
    + intros (Hid & -> & ->). auto.
    + intros (Hid & Heq). injection Heq as -> ->. auto.
  - split; intros (_ & Habs); discriminate Habs.
Qed.

Lemma isOccupied_true_iff (l : list Asset) (excluding : string)
    (targetX targetY : Z) :
  isOccupied l excluding targetX targetY = true
  <-> exists a, In a l /\ id a <> excluding
        /\ gridPosition a
           = Some (atCell {| pos_x := targetX; pos_y := targetY |}).
Proof.
  unfold isOccupied. rewrite existsb_exists.
  split; intros (a & Hin & Ha); exists a; split; auto;
    now apply collides_spec.
Qed.

Lemma existsb_filter_absorb {A : Type} (f keep : A -> bool) (l : list A) :
  (forall a, f a = true -> keep a = true) ->
  existsb f (List.filter keep l) = existsb f l.
Proof.
  intros Himp. induction l as [| a l IH]; [reflexivity |].
  cbn [List.filter existsb]. destruct (keep a) eqn:Hk; cbn [existsb].
  - now rewrite IH.
  - rewrite IH. destruct (f a) eqn:Hf; [| reflexivity].
    apply Himp in Hf. congruence.
Qed.

(** C6 (collision check).  The occupancy check is true exactly when some
    entity whose identifier differs from the excluded one has an explicit
    cell equal to the target.  Entries that carry the excluded identifier
    can be struck from the table without changing the answer (the dragged
    entity never blocks its own cell), and so can entries without an
    explicit cell. *)
Theorem isOccupied_spec (l : list Asset) (excluding : string)
    (targetX targetY : Z) :
  (isOccupied l excluding targetX targetY = true
   <-> exists a, In a l /\ id a <> excluding
         /\ gridPosition a
            = Some (atCell {| pos_x := targetX; pos_y := targetY |}))
  /\ isOccupied (List.filter (fun a => negb (String.eqb (id a) excluding)) l)
       excluding targetX targetY
     = isOccupied l excluding targetX targetY
  /\ isOccupied (List.filter (fun a => match gridPosition a with
                                       | Some _ => true
                                       | None => false
                                       end) l)
       excluding targetX targetY
     = isOccupied l excluding targetX targetY.
Proof.
  split; [apply isOccupied_true_iff |].
  split; apply existsb_filter_absorb; intros a; unfold collides;
    rewrite andb_true_iff; intros [Hid Hpos].
  - exact Hid.
  - destruct (gridPosition a); [reflexivity | discriminate Hpos].
Qed.

(** ** Scene build *)








(** ** Buildings stay on the board *)

Lemma stands_dropCell (m : Mesh) : stands m -> inGrid (dropCell m).
Proof.
  intros [[Hx Hz] _]. apply rawGrid_onBoard in Hx, Hz.
  unfold inGrid, dropCell; cbn [pos_x pos_y]. unfold GRID_SIZE in *. lia.
Qed.

Lemma withinBoard_snap (a b : Z) (h : Q) :
  withinBoard {| vec_x := snapCoord (inject_Z (clampGrid a)); vec_y := h;
                 vec_z := snapCoord (inject_Z (clampGrid b)) |}.
Proof. split; apply onBoard_snapCoord. Qed.

Lemma tame_index (c : Q) :
  tame c ->
  (c - 1 < inject_Z GRID_SIZE - (1 # 2) \/ inject_Z GRID_SIZE <= c - 1)%Q.
Proof.
  unfold tame, GRID_SIZE. change (inject_Z 10) with 10%Q.
  intros [H | H]; [left | right]; lra.
Qed.

Lemma tame_whole (q : Q) (n : Z) : (q == inject_Z n)%Q -> tame q.
Proof.
  intros Hq. unfold tame, GRID_SIZE. rewrite Hq.
  destruct (Z_le_gt_dec n 10) as [Hle | Hgt].
  - left. rewrite Zle_Qle in Hle.
    change (inject_Z 10) with 10%Q in *. lra.
  - right. assert (11 <= n) as Hge by lia. rewrite Zle_Qle in Hge.
    change (inject_Z 11) with 11%Q in Hge.
    change (inject_Z 10) with 10%Q. lra.
Qed.

(** Whole cells and cells within the grid are both tame. *)
Lemma wholePlaced_tame (a : Asset) : wholePlaced a -> tamePlaced a.
Proof.
  unfold wholePlaced, tamePlaced. destruct (gridPosition a) as [p |]; [| auto].
  intros [c ->]. split; eapply tame_whole; [apply atCell_x | apply atCell_y].
Qed.

Lemma placedInGrid_tame (a : Asset) : placedInGrid a -> tamePlaced a.
Proof.
  unfold placedInGrid, tamePlaced, tame, GRID_SIZE.
  destruct (gridPosition a) as [p |]; [| auto].
  change (inject_Z 10) with 10%Q. intros [Hx Hy]. split; left; lra.
Qed.

Lemma stands_buildMesh (log10 : Q -> Q) (index : nat) (asset : Asset) :
  tamePlaced asset -> stands (buildMesh log10 index asset).
Proof.
  intros Htame.
  assert (withinBoard (position (buildMesh log10 index asset))) as Hpos.
  { unfold withinBoard, buildMesh; cbn [position vec_x vec_z].
    unfold tamePlaced in Htame. destruct (gridPosition asset) as [p |].
    - destruct Htame as [Hx Hz].
      split; apply onBoard_clampBuild, tame_index; assumption.
    - pose proof (Z.mod_pos_bound (Z.of_nat index) GRID_SIZE) as Hmod.
      split; apply onBoard_clampBuild.
      + left. assert (Z.of_nat index mod GRID_SIZE <= 9) as Hle
          by (unfold GRID_SIZE in *; lia).
        rewrite Zle_Qle in Hle. unfold GRID_SIZE at 2.
        change (inject_Z 9) with 9%Q in Hle.
        change (inject_Z 10) with 10%Q. lra.
      + destruct (Z_le_gt_dec (Z.of_nat index / GRID_SIZE) 9) as [Hle | Hgt].
        * left. rewrite Zle_Qle in Hle. unfold GRID_SIZE at 2.
          change (inject_Z 9) with 9%Q in Hle.
          change (inject_Z 10) with 10%Q. lra.
        * right. rewrite <- Zle_Qle. unfold GRID_SIZE at 1. lia. }
  split; exact Hpos.
Qed.

Lemma stands_effect (log10 : Q -> Q) (l : list Asset) (d : bool)
    (h : option Asset) :
  Forall tamePlaced l -> Forall stands (buildings (effect log10 l d h)).
Proof.
  intros Htame. cbn [effect buildings]. apply Forall_lookup. intros i m.
  rewrite list_lookup_imap.
  destruct (l !! i) as [a |] eqn:Ha; cbn; [| discriminate].
  intros [= <-]. apply stands_buildMesh.
  exact (Forall_lookup_1 _ _ _ _ Htame Ha).
Qed.

Lemma session_lookup (r : Realm) (i : nat) (object : Mesh) :
  session r = Some (i, object) ->
  isDragging r = true /\ draggedObject r = Some i
  /\ buildings r !! i = Some object.
Proof.
  unfold session. destruct (isDragging r); [| discriminate].
  destruct (draggedObject r) as [k |]; [| discriminate].
  destruct (buildings r !! k) as [m |] eqn:Hm; [| discriminate].
  intros [= -> ->]. auto.
Qed.

Lemma session_intro (r : Realm) (i : nat) (object : Mesh) :
  isDragging r = true -> draggedObject r = Some i ->
  buildings r !! i = Some object -> session r = Some (i, object).
Proof. unfold session. now intros -> -> ->. Qed.

(** The drag branch keeps the session on the same building, which now
    stands on the centre of the target cell. *)
Lemma session_dragTo (l : list Asset) (planeHit : option Vector3) (k : nat)
    (object : Mesh) (r : Realm) :
  session r = Some (k, object) ->
  let point := match planeHit with
               | Some p => p
               | None => planeIntersectPoint r
               end in
  let moved :=
    setPosition
      {| vec_x := snapCoord (inject_Z (clampGrid (rawGrid (vec_x point))));
         vec_y := (vec_y (originalPos (userData object)) + 1)%Q;
         vec_z := snapCoord (inject_Z (clampGrid (rawGrid (vec_z point)))) |}
      object in
  session (dragTo l planeHit k object r) = Some (k, moved)
  /\ dropCell moved = worldToCell (vec_x point) (vec_z point)
  /\ forall j, j <> k ->
       buildings (dragTo l planeHit k object r) !! j = buildings r !! j.
Proof.
  intros Hs point moved. apply session_lookup in Hs as (Hdrag & Hobj & Hk).
  split; [| split].
  - apply session_intro; cbn [dragTo isDragging draggedObject buildings]; auto.
    apply list_lookup_insert_eq. eapply lookup_lt_Some, Hk.
  - unfold dropCell, worldToCell, moved; cbn [setPosition position vec_x vec_z].
    now rewrite !rawGrid_snapCoord.
  - intros j Hj. cbn [dragTo buildings]. now apply list_lookup_insert_ne.
Qed.

Lemma stands_onPointerDown (intersects : list nat) (r : Realm) :
  Forall stands (buildings r) ->
  Forall stands (buildings (onPointerDown intersects r)).
Proof.
  intros Hall. unfold onPointerDown.
  destruct intersects as [| i rest]; [exact Hall |].
  destruct (buildings r !! i) as [object |] eqn:Hobj; [| exact Hall].
  destruct (truthy (assetId (userData object))); [| exact Hall].
  cbn [buildings]. apply Forall_insert; [exact Hall |].
  exact (Forall_lookup_1 _ _ _ _ Hall Hobj).
Qed.

Lemma stands_dragTo (l : list Asset) (planeHit : option Vector3) (i : nat)
    (object : Mesh) (r : Realm) :
  Forall stands (buildings r) -> buildings r !! i = Some object ->
  Forall stands (buildings (dragTo l planeHit i object r)).
Proof.
  intros Hall Hobj. unfold dragTo; cbn [buildings].
  apply Forall_insert; [exact Hall |].
  destruct (Forall_lookup_1 _ _ _ _ Hall Hobj) as [_ Hanchor].
  split; [apply withinBoard_snap | exact Hanchor].
Qed.

Lemma stands_restoreHovered (r : Realm) :
  Forall stands (buildings r) -> Forall stands (restoreHovered r).
Proof.
  intros Hall. unfold restoreHovered.
  destruct (hoveredMesh r) as [h |]; [| exact Hall].
  destruct (decide (Some h = draggedObject r)); [exact Hall |].
  apply Forall_alter; [exact Hall |]. intros m _ Hm. exact Hm.
Qed.

Lemma stands_hover (l : list Asset) (intersects : list nat) (r : Realm) :
  Forall stands (buildings r) ->
  Forall stands (buildings (hover l intersects r)).
Proof.
  intros Hall. pose proof (stands_restoreHovered r Hall) as Hrest.
  unfold hover. destruct intersects as [| i rest]; [exact Hrest |].
  destruct (buildings r !! i) as [object |]; [| exact Hall].
  destruct (truthy (assetId (userData object))); [| exact Hall].
  destruct (decide (hoveredMesh r = Some i)); [exact Hall |].
  cbn [buildings]. destruct (decide (Some i = draggedObject r)); [exact Hrest |].
  apply Forall_alter; [exact Hrest |]. intros m _ Hm. exact Hm.
Qed.

Lemma stands_onPointerMove (l : list Asset) (planeHit : option Vector3)
    (intersects : list nat) (r : Realm) :
  Forall stands (buildings r) ->
  Forall stands (buildings (onPointerMove l planeHit intersects r)).
Proof.
  intros Hall. unfold onPointerMove.
  destruct (session r) as [[i object] |] eqn:Hs.
  - apply stands_dragTo; [exact Hall |]. now apply session_lookup in Hs.
  - now apply stands_hover.
Qed.

Lemma stands_onPointerUp (cb : bool) (l : list Asset) (r : Realm) :
  Forall stands (buildings r) ->
  Forall stands (buildings (fst (onPointerUp cb l r))).
Proof.
  intros Hall. unfold onPointerUp.
  destruct (session r) as [[i object] |] eqn:Hs; [| exact Hall].
  apply session_lookup in Hs as (_ & _ & Hobj).
  destruct (Forall_lookup_1 _ _ _ _ Hall Hobj) as [Hpos Hanchor].
  cbn [fst buildings]. apply Forall_insert; [exact Hall |].
  destruct (isOccupied l _ _ _).
  - split; exact Hanchor.
  - split; [exact Hpos |]. exact Hpos.
Qed.

(** What a call of [onAssetMove] by [onPointerUp] tells about the state it
    was made in. *)
Lemma onPointerUp_call (cb : bool) (l : list Asset) (r r' : Realm)
    (i : string) (p : Cell) :
  onPointerUp cb l r = (r', Some (i, p)) ->
  exists k object,
    session r = Some (k, object) /\ i = assetId (userData object)
    /\ p = dropCell object
    /\ isOccupied l i (pos_x p) (pos_y p) = false.
Proof.
  unfold onPointerUp.
  destruct (session r) as [[k object] |] eqn:Hs; [| discriminate].
  destruct (isOccupied l _ _ _) eqn:Hocc; [discriminate |].
  destruct cb; [| discriminate].
  intros [= _ <- <-]. exists k, object. auto.
Qed.

(** A commit stores a whole cell, which is tame. *)
Lemma tamePlaced_handleAssetMove (i : string) (c : Cell) (l : list Asset) :
  Forall tamePlaced l -> Forall tamePlaced (handleAssetMove i (atCell c) l).
Proof.
  intros Hall. unfold handleAssetMove. apply List.Forall_map.
  eapply Forall_impl; [exact Hall |]. intros a Ha.
  destruct (String.eqb (id a) i); [| exact Ha].
  apply wholePlaced_tame. exists c. reflexivity.
Qed.

(** C5 as stated fails on a building that the scene build put at world
    coordinate 20, as it does for the stored column 10.5: pressed and
    released with no move in between, the building is still there, the
    pointer-up handler floors [20 / 4 + 5] to 10 and, having no clamp,
    commits column 11. *)
Lemma release_without_move_leaves_grid :
  (exists object,
     session (realm (run log10_stub [MouseDown [0%nat]]
                       (mount log10_stub [entityH])))
     = Some (0%nat, object)
     /\ (vec_x (position object) == 20)%Q
     /\ dropCell object = {| pos_x := 11; pos_y := 1 |})
  /\ moves (run log10_stub [MouseDown [0%nat]; MouseUp]
              (mount log10_stub [entityH]))
     = [("H"%string, {| pos_x := 11; pos_y := 1 |})]
  /\ ~ inGrid {| pos_x := 11; pos_y := 1 |}.
Proof.
  split; [| split].
  - eexists. split; [reflexivity |]. split; reflexivity.
  - reflexivity.
  - unfold inGrid, GRID_SIZE; cbn [pos_x pos_y]. lia.
Qed.

Section Traces.

Variable log10 : Q -> Q.

Lemma run_cons (e : Event) (events : list Event) (w : World) :
  run log10 (e :: events) w = run log10 events (step log10 e w).
Proof. reflexivity. Qed.

Lemma run_app (events later : list Event) (w : World) :
  run log10 (events ++ later) w = run log10 later (run log10 events w).
Proof. unfold run. apply fold_left_app. Qed.

(** An invariant of single steps is an invariant of traces. *)
Lemma run_invariant (P : World -> Prop) :
  (forall e w, P w -> P (step log10 e w)) ->
  forall events w, P w -> P (run log10 events w).
Proof.
  intros Hstep events. induction events as [| e events IH]; intros w Hw.
  - exact Hw.
  - rewrite run_cons. apply IH, Hstep, Hw.
Qed.

Lemma boardInv_mount (initial : list Asset) :
  Forall tamePlaced initial -> boardInv (mount log10 initial).
Proof.
  intros Htame. split; [now apply stands_effect |].
  split; [constructor | exact Htame].
Qed.

Lemma boardInv_step (e : Event) (w : World) :
  boardInv w -> boardInv (step log10 e w).
Proof.
  intros (Hall & Hlog & Htame).
  destruct e as [hits | planeHit hits | |]; cbn [step].
  - split; [now apply stands_onPointerDown | split; assumption].
  - split; [now apply stands_onPointerMove | split; assumption].
  - pose proof (stands_onPointerUp true (assets w) _ Hall) as Hup.
    destruct (onPointerUp true (assets w) (realm w)) as [r [[i p] |]] eqn:Hcall.
    + pose proof (tamePlaced_handleAssetMove i p _ Htame) as Hnext.
      split; [now apply stands_effect |]. split; [| exact Hnext].
      cbn [moves].
      apply Forall_app. split; [exact Hlog |]. constructor; [| constructor].
      apply onPointerUp_call in Hcall as (k & object & Hs & _ & -> & _).
      apply session_lookup in Hs as (_ & _ & Hobj).
      apply stands_dropCell. exact (Forall_lookup_1 _ _ _ _ Hall Hobj).
    + split; [exact Hup | split; assumption].
  - split; [now apply stands_effect | split; assumption].
Qed.

(** C5, amended (clamping, with the release that follows no move set
    apart).  The cell the move handler derives from any world point lies
    in [[1, N]] on both axes; this rests on the clamp alone
    ([clampGrid_range]), whatever integer the floor gives.  So after a move of a drag the dragged
    building stands where the pointer-up handler, which floors the position
    of the mesh without a clamp of its own, derives a cell in range.  A
    building that no move has touched stands where the scene build put it:
    in every state reached from a list in which every explicit cell has
    whole coordinates or lies within the grid, the cell the pointer-up
    handler derives from any building is in range, and so is every cell
    ever passed to [onAssetMove]. *)
Theorem cells_stay_in_grid :
  (forall x z : Q, inGrid (worldToCell x z))
  /\ (forall (l : list Asset) (planeHit : option Vector3) (hits : list nat)
        (r : Realm) (k : nat) (object : Mesh),
        session r = Some (k, object) ->
        exists moved,
          session (onPointerMove l planeHit hits r) = Some (k, moved)
          /\ inGrid (dropCell moved))
  /\ (forall (initial : list Asset) (events : list Event),
        Forall (fun a => wholePlaced a \/ placedInGrid a) initial ->
        Forall (fun m => inGrid (dropCell m))
          (buildings (realm (run log10 events (mount log10 initial))))
        /\ Forall inGridMove
             (moves (run log10 events (mount log10 initial)))).
Proof.
  split; [exact worldToCell_inGrid |]. split.
  - intros l planeHit hits r k object Hs.
    destruct (session_dragTo l planeHit k object r Hs) as (Hs' & Hcell & _).
    eexists. unfold onPointerMove. rewrite Hs.
    split; [exact Hs' |]. rewrite Hcell. apply worldToCell_inGrid.
  - intros initial events Hwhole.
    assert (boardInv (run log10 events (mount log10 initial)))
      as (Hall & Hlog & _).
    { apply run_invariant; [exact boardInv_step |]. apply boardInv_mount.
      eapply Forall_impl; [exact Hwhole |].
      intros a [Ha | Ha]; [now apply wholePlaced_tame |].
      now apply placedInGrid_tame. }
    split; [| exact Hlog].
    eapply Forall_impl; [exact Hall | exact stands_dropCell].
Qed.

(** ** No double booking *)

Lemma in_handleAssetMove (i : string) (newPos : GridPosition)
    (l : list Asset) (a' : Asset) :
  In a' (handleAssetMove i newPos l) ->
  exists a, In a l /\ id a' = id a
    /\ ((id a = i /\ gridPosition a' = Some newPos)
        \/ (id a <> i /\ a' = a)).
Proof.
  unfold handleAssetMove. rewrite in_map_iff. intros (a & <- & Hin).
  exists a. split; [exact Hin |].
  destruct (String.eqb_spec (id a) i) as [Heq | Hne].
  - split; [reflexivity |]. left. auto.
  - split; [reflexivity |]. right. auto.
Qed.

Lemma noDoubleBooking_handleAssetMove (i : string) (newPos : Cell)
    (l : list Asset) :
  noDoubleBooking l ->
  isOccupied l i (pos_x newPos) (pos_y newPos) = false ->
  noDoubleBooking (handleAssetMove i (atCell newPos) l).
Proof.
  intros Hinv Hfree a' b' p Ha' Hb' Hdiff Hpa Hpb.
  apply in_handleAssetMove in Ha' as (a & Ha & Hida & Hcasea).
  apply in_handleAssetMove in Hb' as (b & Hb & Hidb & Hcaseb).
  assert (Hblock : forall c, In c l -> id c <> i ->
                     gridPosition c = Some (atCell newPos) -> False).
  { intros c Hc Hidc Hposc.
    assert (isOccupied l i (pos_x newPos) (pos_y newPos) = true) as Hocc.
    { apply isOccupied_true_iff. exists c. destruct newPos; auto. }
    congruence. }
  destruct Hcasea as [[Hai Hta] | [Hai ->]];
    destruct Hcaseb as [[Hbi Htb] | [Hbi ->]].
  - congruence.
  - apply (Hblock b Hb Hbi). congruence.
  - apply (Hblock a Ha Hai). congruence.
  - exact (Hinv a b p Ha Hb Hdiff Hpa Hpb).
Qed.

Lemma noDoubleBooking_step (e : Event) (w : World) :
  noDoubleBooking (assets w) -> noDoubleBooking (assets (step log10 e w)).
Proof.
  intros Hinv. destruct e as [hits | planeHit hits | |]; cbn [step assets];
    try exact Hinv.
  destruct (onPointerUp true (assets w) (realm w)) as [r [[i p] |]] eqn:Hcall;
    cbn [assets]; [| exact Hinv].
  apply onPointerUp_call in Hcall as (_ & _ & _ & _ & _ & Hfree).
  now apply noDoubleBooking_handleAssetMove.
Qed.

(** C1 (no double booking).  From any state in which no two entities with
    different identifiers hold the same explicit cell, every sequence of
    pointer events and renders, with whatever commits it leads to, ends in
    a store with the same property. *)
Theorem noDoubleBooking_run (events : list Event) (w : World) :
  noDoubleBooking (assets w) ->
  noDoubleBooking (assets (run log10 events w)).
Proof.
  revert w.
  apply (run_invariant (fun w => noDoubleBooking (assets w))).
  exact noDoubleBooking_step.
Qed.

End Traces.

(** ** Release of a drag *)

Lemma heldByOther_isOccupied (l : list Asset) (excluding : string)
    (c : Cell) :
  heldByOther l excluding c
  <-> isOccupied l excluding (pos_x c) (pos_y c) = true.
Proof.
  rewrite isOccupied_true_iff. destruct c as [cx cy]. reflexivity.
Qed.

Lemma heldByOther_cases (l : list Asset) (excluding : string)
    (c : Cell) :
  heldByOther l excluding c \/ ~ heldByOther l excluding c.
Proof.
  rewrite heldByOther_isOccupied.
  destruct (isOccupied l excluding (pos_x c) (pos_y c)); [left | right];
    congruence.
Qed.

Section Release.

Variable log10 : Q -> Q.
Variables (w : World) (i : nat) (object : Mesh).
Hypothesis Hsession : session (realm w) = Some (i, object).

(** The state after a release over a cell held by another entity. *)
Lemma step_MouseUp_occupied :
  heldByOther (assets w) (assetId (userData object)) (dropCell object) ->
  step log10 MouseUp w
  = {| assets := assets w;
       realm := fst (onPointerUp true (assets w) (realm w));
       moves := moves w |}
  /\ snd (onPointerUp true (assets w) (realm w)) = None
  /\ buildings (fst (onPointerUp true (assets w) (realm w)))
     = <[i := setEmissiveIntensity 0.5
                (setEmissive 0x222222
                   (setPosition (originalPos (userData object)) object))]>
         (buildings (realm w)).
Proof.
  intros Hocc. apply heldByOther_isOccupied in Hocc.
  cbn [dropCell pos_x pos_y] in Hocc.
  cbn [step]. unfold onPointerUp. rewrite Hsession.
  rewrite Hocc. cbn [fst snd buildings]. auto.
Qed.

(** The state after a release over a cell no other entity holds. *)
Lemma step_MouseUp_free :
  ~ heldByOther (assets w) (assetId (userData object)) (dropCell object) ->
  snd (onPointerUp true (assets w) (realm w))
    = Some (assetId (userData object), dropCell object)
  /\ step log10 MouseUp w
     = {| assets := handleAssetMove (assetId (userData object))
                      (atCell (dropCell object)) (assets w);
          realm := effect log10
                     (handleAssetMove (assetId (userData object))
                        (atCell (dropCell object)) (assets w))
                     false (hoveredAsset (realm w));
          moves := moves w ++ [(assetId (userData object), dropCell object)] |}.
Proof.
  intros Hfree. rewrite heldByOther_isOccupied in Hfree.
  apply not_true_is_false in Hfree. cbn [dropCell pos_x pos_y] in Hfree.
  cbn [step]. unfold onPointerUp. rewrite Hsession.
  rewrite Hfree. cbn [fst snd]. auto.
Qed.

End Release.

(** ** The store under [handleAssetMove] *)

Lemma placementOf_moved (i : string) (p : GridPosition) (l : list Asset) :
  In i (map id l) -> placementOf (handleAssetMove i p l) i = Some p.
Proof.
  unfold placementOf, handleAssetMove.
  induction l as [| a l IH]; cbn [map In find]; [intros [] |].
  intros Hin. destruct (String.eqb_spec (id a) i) as [Heq | Hne].
  - cbn [withGridPosition id]. rewrite Heq, String.eqb_refl. reflexivity.
  - apply String.eqb_neq in Hne as Hneb. rewrite Hneb.
    apply IH. destruct Hin as [Habs | Hin]; [contradiction | exact Hin].
Qed.

Lemma placementOf_others (i j : string) (p : GridPosition) (l : list Asset) :
  j <> i -> placementOf (handleAssetMove i p l) j = placementOf l j.
Proof.
  intros Hne. unfold placementOf, handleAssetMove.
  induction l as [| a l IH]; cbn [map find]; [reflexivity |].
  destruct (String.eqb_spec (id a) i) as [Heq | Hai].
  - cbn [withGridPosition id]. rewrite Heq.
    apply not_eq_sym, String.eqb_neq in Hne. rewrite Hne. exact IH.
  - destruct (String.eqb (id a) j); [reflexivity | exact IH].
Qed.

Lemma handleAssetMove_moved (i : string) (p : GridPosition)
    (l : list Asset)
    (a : Asset) :
  In a (handleAssetMove i p l) -> id a = i -> gridPosition a = Some p.
Proof.
  intros Hin Hid.
  apply in_handleAssetMove in Hin as (b & _ & Hsame & [[_ Hpos] | [Hne ->]]).
  - exact Hpos.
  - contradiction.
Qed.

(** A commit that names a cell the entity already has, or an identifier no
    entry carries, leaves the list as it is. *)
Lemma handleAssetMove_fixed (i : string) (p : GridPosition) (l : list Asset) :
  (forall a, In a l -> id a = i -> gridPosition a = Some p) ->
  handleAssetMove i p l = l.
Proof.
  unfold handleAssetMove. induction l as [| a l IH]; intros Hsame;
    cbn [map]; [reflexivity |].
  rewrite IH by (intros b Hb; apply Hsame; now right). f_equal.
  destruct (String.eqb_spec (id a) i) as [Heq | Hne]; [| reflexivity].
  specialize (Hsame a (or_introl eq_refl) Heq).
  destruct a as [ai an at_ av ag]. cbn in Hsame |- *. now rewrite Hsame.
Qed.

(** ** Claims on the release of a drag *)

(** C2 (occupied drop is atomic).  When a drag is released over a cell
    that is the explicit cell of a different entity, pointer-up puts the
    dragged building back on its recorded anchor, leaves the anchor and
    every other building as they were, calls [onAssetMove] not at all,
    leaves the store unchanged and ends the drag. *)
Theorem occupied_drop_reverts (log10 : Q -> Q) (w : World) (i : nat)
    (object : Mesh) :
  session (realm w) = Some (i, object) ->
  heldByOther (assets w) (assetId (userData object)) (dropCell object) ->
  let w' := step log10 MouseUp w in
  (exists m, buildings (realm w') !! i = Some m
      /\ position m = originalPos (userData object)
      /\ userData m = userData object)
  /\ (forall j, j <> i ->
        buildings (realm w') !! j = buildings (realm w) !! j)
  /\ snd (onPointerUp true (assets w) (realm w)) = None
  /\ moves w' = moves w
  /\ assets w' = assets w
  /\ isDragging (realm w') = false
  /\ draggedObject (realm w') = None.
Proof.
  intros Hs Hocc w'.
  destruct (step_MouseUp_occupied log10 w i object Hs Hocc)
    as (Hstep & Hcall & Hbuild).
  subst w'. rewrite Hstep. cbn [realm moves assets]. rewrite Hbuild.
  apply session_lookup in Hs as Hparts. destruct Hparts as (_ & _ & Hobj).
  split.
  { eexists. split.
    - apply list_lookup_insert_eq. eapply lookup_lt_Some, Hobj.
    - split; reflexivity. }
  split; [intros j Hj; now apply list_lookup_insert_ne |].
  split; [exact Hcall |].
  split; [reflexivity |]. split; [reflexivity |].
  unfold onPointerUp. rewrite Hs. split; reflexivity.
Qed.

(** C3 (successful commit).  When a drag is released over a cell that is
    the explicit cell of no other entity, pointer-up calls [onAssetMove]
    once, with the identifier of the dragged entity and the target cell;
    applying the callback gives every entry with that identifier the target
    cell, so the table maps the entity to it, and changes no other
    placement; the drag ends. *)
Theorem free_drop_commits (log10 : Q -> Q) (w : World) (i : nat)
    (object : Mesh) :
  session (realm w) = Some (i, object) ->
  ~ heldByOther (assets w) (assetId (userData object)) (dropCell object) ->
  let w' := step log10 MouseUp w in
  let dragged := assetId (userData object) in
  snd (onPointerUp true (assets w) (realm w))
    = Some (dragged, dropCell object)
  /\ moves w' = moves w ++ [(dragged, dropCell object)]
  /\ assets w'
     = handleAssetMove dragged (atCell (dropCell object)) (assets w)
  /\ (forall a, In a (assets w') -> id a = dragged ->
        gridPosition a = Some (atCell (dropCell object)))
  /\ (In dragged (map id (assets w)) ->
        placementOf (assets w') dragged = Some (atCell (dropCell object)))
  /\ (forall j, j <> dragged ->
        placementOf (assets w') j = placementOf (assets w) j)
  /\ isDragging (realm w') = false
  /\ draggedObject (realm w') = None.
Proof.
  intros Hs Hfree w' dragged.
  destruct (step_MouseUp_free log10 w i object Hs Hfree) as (Hcall & Hstep).
  subst w'. rewrite Hstep. cbn [realm moves assets]. fold dragged.
  split; [exact Hcall |].
  split; [reflexivity |]. split; [reflexivity |].
  split; [intros a; apply handleAssetMove_moved |].
  split; [apply placementOf_moved |].
  split; [intros j; apply placementOf_others |].
  split; reflexivity.
Qed.

(** C8 as stated fails for an entity without an explicit cell: picked up
    and released at once over the cell it is shown on, it is committed, and
    the store, which had no cell for it, now has one. *)
Lemma origin_drop_of_unplaced_changes_table :
  exists i object,
    session (realm scenarioUnplaced) = Some (i, object)
    /\ (inject_Z (pos_x (dropCell object)) == gridX (userData object))%Q
    /\ (inject_Z (pos_y (dropCell object)) == gridY (userData object))%Q
    /\ assets (step log10_stub MouseUp scenarioUnplaced)
       <> assets scenarioUnplaced.
Proof.
  eexists; eexists. split; [reflexivity |].
  split; [reflexivity |]. split; [reflexivity |].
  vm_compute. intros Habs. discriminate Habs.
Qed.

(** C8, amended (origin drop of a placed entity).  When a drag is released
    over a cell that every store entry with the dragged identifier already
    has as its explicit cell, the store after pointer-up, commit included,
    is the store before. *)
Theorem origin_drop_keeps_table (log10 : Q -> Q) (w : World) (i : nat)
    (object : Mesh) :
  session (realm w) = Some (i, object) ->
  (forall a, In a (assets w) -> id a = assetId (userData object) ->
     gridPosition a = Some (atCell (dropCell object))) ->
  assets (step log10 MouseUp w) = assets w.
Proof.
  intros Hs Hsame.
  destruct (heldByOther_cases (assets w) (assetId (userData object))
              (dropCell object)) as [Hocc | Hfree].
  - destruct (step_MouseUp_occupied log10 w i object Hs Hocc) as (-> & _).
    reflexivity.
  - destruct (step_MouseUp_free log10 w i object Hs Hfree) as (_ & ->).
    cbn [assets]. now apply handleAssetMove_fixed.
Qed.

(** C9 as stated fails: the handler never looks the identifier up, so a
    release over a free cell calls [onAssetMove] with the identifier the
    store no longer has. *)
Lemma stale_release_still_commits :
  exists i object,
    session (realm scenarioStale) = Some (i, object)
    /\ ~ In (assetId (userData object)) (map id (assets scenarioStale))
    /\ moves (step log10_stub MouseUp scenarioStale)
       = moves scenarioStale
         ++ [(assetId (userData object), {| pos_x := 1; pos_y := 1 |})]
    /\ moves (step log10_stub MouseUp scenarioStale) <> moves scenarioStale.
Proof.
  eexists; eexists. split; [reflexivity |].
  split.
  { cbn. intros [Habs | []]. discriminate Habs. }
  split; [vm_compute; reflexivity |].
  vm_compute. intros Habs. discriminate Habs.
Qed.

(** C9, amended (release of a stale session).  When the identifier of the
    dragged building is carried by no entry of the store, pointer-up ends
    the session and leaves the store unchanged; over a cell held by an
    entity it calls nothing, and over a free cell it calls [onAssetMove]
    once with the stale identifier, which [handleAssetMove] ignores. *)
Theorem stale_release (log10 : Q -> Q) (w : World) (i : nat)
    (object : Mesh) :
  session (realm w) = Some (i, object) ->
  ~ In (assetId (userData object)) (map id (assets w)) ->
  let w' := step log10 MouseUp w in
  session (realm w') = None
  /\ isDragging (realm w') = false
  /\ draggedObject (realm w') = None
  /\ isDraggingState (realm w') = false
  /\ assets w' = assets w
  /\ (heldByOther (assets w) (assetId (userData object)) (dropCell object) ->
      moves w' = moves w)
  /\ (~ heldByOther (assets w) (assetId (userData object)) (dropCell object) ->
      moves w' = moves w ++ [(assetId (userData object), dropCell object)]).
Proof.
  intros Hs Hstale w'.
  assert (Hnone : forall a, In a (assets w) ->
            id a = assetId (userData object) ->
            gridPosition a = Some (atCell (dropCell object))).
  { intros a Ha Hid. exfalso. apply Hstale. rewrite <- Hid.
    now apply in_map. }
  assert (Hfix : handleAssetMove (assetId (userData object))
                   (atCell (dropCell object)) (assets w) = assets w)
    by now apply handleAssetMove_fixed.
  assert (Hidle : session (realm w') = None /\ isDragging (realm w') = false
            /\ draggedObject (realm w') = None
            /\ isDraggingState (realm w') = false
            /\ assets w' = assets w).
  { subst w'.
    destruct (heldByOther_cases (assets w) (assetId (userData object))
                (dropCell object)) as [Hocc | Hfree].
    - destruct (step_MouseUp_occupied log10 w i object Hs Hocc) as (-> & _).
      cbn [realm assets]. unfold onPointerUp. rewrite Hs. cbn. auto.
    - destruct (step_MouseUp_free log10 w i object Hs Hfree) as (_ & ->).
      cbn [realm assets]. rewrite Hfix. cbn. auto. }
  destruct Hidle as (H1 & H2 & H3 & H4 & H5).
  repeat (split; [assumption |]).
  split.
  - intros Hocc. subst w'.
    destruct (step_MouseUp_occupied log10 w i object Hs Hocc) as (-> & _).
    reflexivity.
  - intros Hfree. subst w'.
    destruct (step_MouseUp_free log10 w i object Hs Hfree) as (_ & ->).
    reflexivity.
Qed.

(** ** Pointer-down during a drag *)

Lemma onPointerDown_picked (intersects : list nat) (r : Realm) :
  match picked intersects r with
  | None => onPointerDown intersects r = r
  | Some (j, target) =>
    buildings r !! j = Some target
    /\ session (onPointerDown intersects r)
       = Some (j, liftUp (setEmissiveIntensity 1 (setEmissive 0xffffff target)))
  end.
Proof.
  unfold picked, onPointerDown.
  destruct intersects as [| j rest]; [reflexivity |].
  destruct (buildings r !! j) as [target |] eqn:Htarget; [| reflexivity].
  destruct (truthy (assetId (userData target))); [| reflexivity].
  split; [exact Htarget |].
  apply session_intro; cbn [isDragging draggedObject buildings]; auto.
  apply list_lookup_insert_eq. eapply lookup_lt_Some, Htarget.
Qed.

Lemma userData_onPointerDown (intersects : list nat) (r : Realm) :
  map userData (buildings (onPointerDown intersects r))
  = map userData (buildings r).
Proof.
  unfold onPointerDown.
  destruct intersects as [| j rest]; [reflexivity |].
  destruct (buildings r !! j) as [target |] eqn:Htarget; [| reflexivity].
  destruct (truthy (assetId (userData target))); [| reflexivity].
  cbn [buildings].
  change (map userData) with (fmap (M := list) userData).
  rewrite list_fmap_insert. apply list_insert_id.
  rewrite list_lookup_fmap, Htarget. reflexivity.
Qed.

(** C7 as stated fails: with E1 being dragged, a pointer-down whose ray
    meets E2 first makes E2 the dragged object. *)
Lemma pointerDown_replaces_session :
  exists i object j other,
    session (realm scenarioPicked) = Some (i, object)
    /\ session (realm (step log10_stub (MouseDown [1%nat]) scenarioPicked))
       = Some (j, other)
    /\ assetId (userData other) <> assetId (userData object).
Proof.
  do 4 eexists. split; [reflexivity |]. split; [reflexivity |].
  cbn. intros Habs. discriminate Habs.
Qed.

(** C7, amended (pointer-down during a drag).  While a session is active,
    a pointer-down that picks no building leaves the whole state as it is;
    one that picks a building makes that building, lifted by one unit, the
    dragged object of the one session there is.  Either way a session is
    active afterwards and no building changes its identifier or its
    recorded anchor. *)
Theorem pointerDown_while_dragging (r : Realm) (i : nat) (object : Mesh)
    (intersects : list nat) :
  session r = Some (i, object) ->
  let r' := onPointerDown intersects r in
  match picked intersects r with
  | None => r' = r
  | Some (j, target) =>
    session r'
    = Some (j, liftUp (setEmissiveIntensity 1 (setEmissive 0xffffff target)))
  end
  /\ (exists j m, session r' = Some (j, m))
  /\ map userData (buildings r') = map userData (buildings r).
Proof.
  intros Hs r'. subst r'.
  pose proof (onPointerDown_picked intersects r) as Hpick.
  destruct (picked intersects r) as [[j target] |].
  - destruct Hpick as [_ Hnew].
    split; [exact Hnew |]. split; [eauto |]. apply userData_onPointerDown.
  - rewrite Hpick. split; [reflexivity |]. split; [eauto | reflexivity].
Qed.

(** ** The anchor during a drag *)

Lemma map_alter_same {A B : Type} (g : A -> B) (f : A -> A) (k : nat)
    (l : list A) :
  (forall x, g (f x) = g x) -> map g (alter f k l) = map g l.
Proof.
  intros Hsame. revert k. induction l as [| a l IH]; intros k;
    [reflexivity |].
  destruct k as [| k]; cbn; [now rewrite Hsame | now rewrite IH].
Qed.

Lemma map_insert_same {A B : Type} (g : A -> B) (k : nat) (x y : A)
    (l : list A) :
  l !! k = Some x -> g y = g x -> map g (<[k := y]> l) = map g l.
Proof.
  revert k. induction l as [| a l IH]; intros k Hk Hsame; [reflexivity |].
  destruct k as [| k]; cbn in Hk |- *.
  - injection Hk as ->. now rewrite Hsame.
  - f_equal. now apply IH.
Qed.

Lemma userData_restoreHovered (r : Realm) :
  map userData (restoreHovered r) = map userData (buildings r).
Proof.
  unfold restoreHovered. destruct (hoveredMesh r) as [h |]; [| reflexivity].
  destruct (decide (Some h = draggedObject r)); [reflexivity |].
  now apply map_alter_same.
Qed.

(** Neither branch of the move handler touches the identifier or the
    anchor of a building: the anchor a release reverts to is the one the
    building had when it was picked up. *)
Lemma userData_onPointerMove (l : list Asset) (planeHit : option Vector3)
    (intersects : list nat) (r : Realm) :
  map userData (buildings (onPointerMove l planeHit intersects r))
  = map userData (buildings r).
Proof.
  unfold onPointerMove. destruct (session r) as [[i object] |] eqn:Hs.
  - apply session_lookup in Hs as (_ & _ & Hobj).
    unfold dragTo; cbn [buildings]. now apply map_insert_same with object.
  - unfold hover. destruct intersects as [| i rest];
      [apply userData_restoreHovered |].
    destruct (buildings r !! i) as [object |]; [| reflexivity].
    destruct (truthy (assetId (userData object))); [| reflexivity].
    destruct (decide (hoveredMesh r = Some i)); [reflexivity |].
    cbn [buildings].
    destruct (decide (Some i = draggedObject r));
      [apply userData_restoreHovered |].
    rewrite map_alter_same by reflexivity. apply userData_restoreHovered.
Qed.

(** ** The scenarios of the specification, run *)

(** E1 dragged onto the cell of E2 and released: E1 is back where the
    scene build put it, nothing was committed, the store is as before. *)
Example scenario_occupied_release :
  let before := mount log10_stub [entityE1; entityE2] in
  let after := run log10_stub
                 [MouseDown [0%nat]; MouseMove (planePoint (-13) (-17)) [];
                  MouseUp] before in
  option_map dropCell (option_map snd (session (realm scenarioOverE2)))
    = Some {| pos_x := 2; pos_y := 1 |}
  /\ map position (buildings (realm after))
     = map position (buildings (realm before))
  /\ moves after = []
  /\ assets after = assets before.
Proof. vm_compute. auto. Qed.

(** E1 dragged onto the empty cell (5,5) and released: one commit, and the
    table maps E1 to (5,5). *)
Example scenario_free_release :
  let before := mount log10_stub [entityE1; entityE2] in
  let after := run log10_stub
                 [MouseDown [0%nat]; MouseMove (planePoint (-1) (-3)) [];
                  MouseUp] before in
  moves after = [("E1"%string, {| pos_x := 5; pos_y := 5 |})]
  /\ placementOf (assets after) "E1"
     = Some (atCell {| pos_x := 5; pos_y := 5 |})
  /\ placementOf (assets after) "E2"
     = Some (atCell {| pos_x := 2; pos_y := 1 |}).
Proof. vm_compute. auto. Qed.

(** ** The theorems at concrete inputs *)

Lemma noDoubleBooking_checked (l : list Asset) :
  bookedTwice l = false -> noDoubleBooking l.
Proof.
  intros Hcheck a b p Ha Hb Hdiff Hpa Hpb.
  assert (bookedTwice l = true) as Habs; [| congruence].
  unfold bookedTwice. apply existsb_exists. exists a. split; [exact Ha |].
  rewrite Hpa. apply existsb_exists. exists b. split; [exact Hb |].
  rewrite Hpb. apply andb_true_iff. split.
  - apply negb_true_iff, String.eqb_neq. congruence.
  - unfold sameCell. apply andb_true_iff.
    split; apply Qeq_bool_iff; reflexivity.
Qed.

Lemma noDoubleBooking_run_witness :
  let events := [MouseDown [0%nat]; MouseMove (planePoint (-1) (-3)) [];
                 MouseUp; MouseDown [1%nat];
                 MouseMove (planePoint (-1) (-3)) []; MouseUp;
                 MouseDown [1%nat]; MouseMove (planePoint 17 100) []; MouseUp] in
  let w := mount log10_stub [entityE1; entityE2] in
  noDoubleBooking (assets w)
  /\ noDoubleBooking (assets (run log10_stub events w)).
Proof.
  intros events w. split.
  - apply noDoubleBooking_checked. vm_compute. reflexivity.
  - apply (noDoubleBooking_run log10_stub events w).
    apply noDoubleBooking_checked. vm_compute. reflexivity.
Defined.

Lemma occupied_drop_reverts_witness :
  exists object,
    session (realm scenarioOverE2) = Some (0%nat, object)
    /\ heldByOther (assets scenarioOverE2) (assetId (userData object))
         (dropCell object)
    /\ moves (step log10_stub MouseUp scenarioOverE2) = moves scenarioOverE2
    /\ assets (step log10_stub MouseUp scenarioOverE2)
       = assets scenarioOverE2.
Proof.
  eexists. split; [reflexivity |].
  assert (heldByOther (assets scenarioOverE2) "E1"
            {| pos_x := 2; pos_y := 1 |}) as Hocc.
  { exists entityE2. split; [right; left; reflexivity |].
    split; [discriminate | reflexivity]. }
  split; [exact Hocc |].
  pose proof (occupied_drop_reverts log10_stub scenarioOverE2 0 _
                eq_refl Hocc) as Hthm.
  cbv zeta in Hthm. destruct Hthm as (_ & _ & _ & Hmoves & Hassets & _ & _).
  split; [exact Hmoves | exact Hassets].
Defined.

Lemma free_drop_commits_witness :
  exists object,
    session (realm scenarioOverFree) = Some (0%nat, object)
    /\ ~ heldByOther (assets scenarioOverFree) (assetId (userData object))
           (dropCell object)
    /\ moves (step log10_stub MouseUp scenarioOverFree)
       = [("E1"%string, {| pos_x := 5; pos_y := 5 |})]
    /\ placementOf (assets (step log10_stub MouseUp scenarioOverFree)) "E1"
       = Some (atCell {| pos_x := 5; pos_y := 5 |}).
Proof.
  eexists. split; [reflexivity |].
  assert (~ heldByOther (assets scenarioOverFree) "E1"
              {| pos_x := 5; pos_y := 5 |}) as Hfree.
  { rewrite heldByOther_isOccupied. vm_compute. discriminate. }
  split; [exact Hfree |].
  pose proof (free_drop_commits log10_stub scenarioOverFree 0 _
                eq_refl Hfree) as Hthm.
  cbv zeta in Hthm. destruct Hthm as (_ & Hmoves & _ & _ & Hplace & _ & _ & _).
  split; [exact Hmoves |].
  apply Hplace. vm_compute. left. reflexivity.
Defined.

Lemma pointerDown_while_dragging_witness :
  exists object,
    session (realm scenarioPicked) = Some (0%nat, object)
    /\ onPointerDown [] (realm scenarioPicked) = realm scenarioPicked
    /\ map userData (buildings (onPointerDown [1%nat] (realm scenarioPicked)))
       = map userData (buildings (realm scenarioPicked)).
Proof.
  eexists. split; [reflexivity |]. split.
  - pose proof (pointerDown_while_dragging (realm scenarioPicked) 0 _ []
                  eq_refl) as Hthm.
    cbv zeta in Hthm. destruct Hthm as (Hmiss & _). exact Hmiss.
  - pose proof (pointerDown_while_dragging (realm scenarioPicked) 0 _
                  [1%nat] eq_refl) as Hthm.
    cbv zeta in Hthm. destruct Hthm as (_ & _ & Hdata). exact Hdata.
Defined.

Lemma origin_drop_keeps_table_witness :
  exists object,
    session (realm scenarioPicked) = Some (0%nat, object)
    /\ dropCell object = {| pos_x := 1; pos_y := 1 |}
    /\ (forall a, In a (assets scenarioPicked) ->
          id a = assetId (userData object) ->
          gridPosition a = Some (atCell (dropCell object)))
    /\ assets (step log10_stub MouseUp scenarioPicked)
       = assets scenarioPicked.
Proof.
  eexists. split; [reflexivity |].
  split; [vm_compute; reflexivity |].
  assert (forall a, In a (assets scenarioPicked) -> id a = "E1"%string ->
            gridPosition a = Some (atCell {| pos_x := 1; pos_y := 1 |}))
    as Hsame.
  { intros a [<- | [<- | []]] Hid; [reflexivity | discriminate Hid]. }
  split; [exact Hsame |].
  exact (origin_drop_keeps_table log10_stub scenarioPicked 0 _ eq_refl Hsame).
Defined.

Lemma stale_release_witness :
  exists object,
    session (realm scenarioStale) = Some (0%nat, object)
    /\ ~ In (assetId (userData object)) (map id (assets scenarioStale))
    /\ session (realm (step log10_stub MouseUp scenarioStale)) = None
    /\ assets (step log10_stub MouseUp scenarioStale) = assets scenarioStale.
Proof.
  eexists. split; [reflexivity |].
  assert (~ In "E1"%string (map id (assets scenarioStale))) as Hstale.
  { cbn. intros [Habs | []]. discriminate Habs. }
  split; [exact Hstale |].
  pose proof (stale_release log10_stub scenarioStale 0 _ eq_refl Hstale)
    as Hthm.
  cbv zeta in Hthm. destruct Hthm as (Hidle & _ & _ & _ & Hassets & _).
  split; [exact Hidle | exact Hassets].
Defined.


Lemma cells_stay_in_grid_witness :
  Forall (fun a => wholePlaced a \/ placedInGrid a) [entityE1; entityFar]
  /\ moves (run log10_stub [MouseDown [1%nat]; MouseUp]
              (mount log10_stub [entityE1; entityFar]))
     = [("F"%string, {| pos_x := 10; pos_y := 1 |})]
  /\ Forall inGridMove
       (moves (run log10_stub [MouseDown [1%nat]; MouseUp]
                 (mount log10_stub [entityE1; entityFar]))).
Proof.
  assert (Forall (fun a => wholePlaced a \/ placedInGrid a)
            [entityE1; entityFar]) as Hwhole.
  { apply Forall_cons_2; [left; eexists; reflexivity |].
    apply Forall_cons_2; [left; eexists; reflexivity | apply Forall_nil_2]. }
  split; [exact Hwhole |]. split; [reflexivity |].
  destruct (cells_stay_in_grid log10_stub) as (_ & _ & Hreach).
  exact (proj2 (Hreach [entityE1; entityFar] _ Hwhole)).
Defined.

(** * Further properties of the board *)

(** ** Where a point snaps to *)

Lemma clamp_axis (w : Q) :
  let g := clampGrid (rawGrid w) in
  ((w < - (inject_Z boardWidth / 2))%Q -> g = 0)
  /\ ((inject_Z boardWidth / 2 <= w)%Q -> g = GRID_SIZE - 1)
  /\ (onBoard w ->
      g = rawGrid w
      /\ (snapCoord (inject_Z g) - inject_Z CELL_SIZE / 2 <= w)%Q
      /\ (w < snapCoord (inject_Z g) + inject_Z CELL_SIZE / 2)%Q).
Proof.
  intros g. subst g. destruct (rawGrid_bounds w) as [Hlo Hhi].
  unfold onBoard, boardWidth, clampGrid, GRID_SIZE, CELL_SIZE.
  assert (inject_Z (10 * 4) / 2 == 20)%Q as -> by reflexivity.
  assert (inject_Z 4 / 2 == 2)%Q as -> by reflexivity.
  split; [| split].
  - intros Hout.
    assert (inject_Z (rawGrid w) < inject_Z 0)%Q as Hneg
      by (change (inject_Z 0) with 0%Q; lra).
    rewrite <- Zlt_Qlt in Hneg. lia.
  - intros Hout.
    assert (inject_Z 9 < inject_Z (rawGrid w))%Q as Hbig
      by (change (inject_Z 9) with 9%Q; lra).
    rewrite <- Zlt_Qlt in Hbig. lia.
  - intros [Hge Hlt].
    assert (inject_Z (-1) < inject_Z (rawGrid w))%Q as Hnn
      by (change (inject_Z (-1)) with (-1)%Q; lra).
    assert (inject_Z (rawGrid w) < inject_Z 10)%Q as Hsm
      by (change (inject_Z 10) with 10%Q; lra).
    rewrite <- Zlt_Qlt in Hnn, Hsm.
    replace (Z.max 0 (Z.min (10 - 1) (rawGrid w))) with (rawGrid w) by lia.
    split; [reflexivity |]. rewrite snapCoord_value. split; lra.
Qed.

(** X1 (where a point snaps to).  A point beyond the board on one axis
    maps to the border column or row on that side.  A point on the board
    whose coordinate the handler divides and offsets without rounding maps
    to the cell that contains it, so the centre it snaps to is within half
    a cell of the point. *)
Theorem snap_geometry (x z : Q) :
  let cell := worldToCell x z in
  let centre := cellToWorld cell in
  let half := (inject_Z CELL_SIZE / 2)%Q in
  let edge := (inject_Z boardWidth / 2)%Q in
  ((x < - edge)%Q -> pos_x cell = 1)
  /\ ((edge <= x)%Q -> pos_x cell = GRID_SIZE)
  /\ (onBoard x -> exactCoord x ->
      (fst centre - half <= x)%Q /\ (x < fst centre + half)%Q)
  /\ ((z < - edge)%Q -> pos_y cell = 1)
  /\ ((edge <= z)%Q -> pos_y cell = GRID_SIZE)
  /\ (onBoard z -> exactCoord z ->
      (snd centre - half <= z)%Q /\ (z < snd centre + half)%Q).
Proof.
  intros cell centre half edge. subst cell centre half edge.
  unfold worldToCell, cellToWorld; cbn [pos_x pos_y fst snd].
  replace (clampGrid (rawGrid x) + 1 - 1) with (clampGrid (rawGrid x)) by lia.
  replace (clampGrid (rawGrid z) + 1 - 1) with (clampGrid (rawGrid z)) by lia.
  destruct (clamp_axis x) as (Hx1 & Hx2 & Hx3).
  destruct (clamp_axis z) as (Hz1 & Hz2 & Hz3).
  unfold GRID_SIZE in *.
  split; [intros H; apply Hx1 in H; lia |].
  split; [intros H; apply Hx2 in H; lia |].
  split; [intros H _; apply Hx3 in H; tauto |].
  split; [intros H; apply Hz1 in H; lia |].
  split; [intros H; apply Hz2 in H; lia |].
  intros H _; apply Hz3 in H; tauto.
Qed.

Lemma snap_geometry_witness :
  onBoard (-13) /\ exactCoord (-13)
  /\ worldToCell (-13) (-17) = {| pos_x := 2; pos_y := 1 |}
  /\ (fst (cellToWorld (worldToCell (-13) (-17))) - inject_Z CELL_SIZE / 2
      <= -13)%Q.
Proof.
  assert (onBoard (-13)) as Hx by (unfold onBoard; split; reflexivity || discriminate).
  assert (exactCoord (-13)) as Hex.
  { exists (-13 * 2 ^ 20). split; [vm_compute; discriminate | reflexivity]. }
  split; [exact Hx |]. split; [exact Hex |]. split; [reflexivity |].
  pose proof (snap_geometry (-13) (-17)) as Hthm. cbv zeta in Hthm.
  destruct Hthm as (_ & _ & Hon & _). exact (proj1 (Hon Hx Hex)).
Defined.

(** X2 (the release follows the indicator).  After a move during a drag
    the dragged building stands on the cell of the pointer and the
    indicator is red exactly when that cell is occupied by another entity;
    a release that follows, with the store unchanged, reverts exactly when
    the indicator was red and otherwise commits the dragged identifier to
    that cell. *)
Theorem release_follows_indicator (l : list Asset)
    (planeHit : option Vector3) (hits : list nat) (r : Realm) (k : nat)
    (object : Mesh) :
  session r = Some (k, object) ->
  let r' := onPointerMove l planeHit hits r in
  let point := match planeHit with
               | Some p => p
               | None => planeIntersectPoint r
               end in
  let cell := worldToCell (vec_x point) (vec_z point) in
  let dragged := assetId (userData object) in
  let blocked := isOccupied l dragged (pos_x cell) (pos_y cell) in
  (exists moved, session r' = Some (k, moved)
     /\ dropCell moved = cell /\ userData moved = userData object)
  /\ highlight_color r' = (if blocked then 0xef4444 else 0x06b6d4)
  /\ snd (onPointerUp true l r')
     = (if blocked then None else Some (dragged, cell)).
Proof.
  intros Hs r' point cell dragged blocked.
  destruct (session_dragTo l planeHit k object r Hs) as (Hs' & Hcell & _).
  fold point in Hs', Hcell. fold cell in Hcell.
  assert (r' = dragTo l planeHit k object r) as Hr'
    by (subst r'; unfold onPointerMove; now rewrite Hs).
  rewrite Hr'. split; [| split].
  - eexists. split; [exact Hs' |]. split; [exact Hcell | reflexivity].
  - reflexivity.
  - unfold onPointerUp. rewrite Hs'.
    set (moved := setPosition _ object) in *.
    change (rawGrid (vec_x (position moved)) + 1) with (pos_x (dropCell moved)).
    change (rawGrid (vec_z (position moved)) + 1) with (pos_y (dropCell moved)).
    rewrite Hcell. change (assetId (userData moved)) with dragged.
    fold blocked. cbn [snd]. destruct blocked; [reflexivity |].
    destruct cell; reflexivity.
Qed.

(** *** Hovering *)

(** Hovering repaints buildings and nothing else: any reading of a mesh
    that ignores the emissive part of the material is unchanged. *)
Lemma map_restoreHovered {B : Type} (g : Mesh -> B) (r : Realm) :
  (forall hex m, g (setEmissive hex m) = g m) ->
  map g (restoreHovered r) = map g (buildings r).
Proof.
  intros Hhex. unfold restoreHovered.
  destruct (hoveredMesh r) as [h |]; [| reflexivity].
  destruct (decide (Some h = draggedObject r)); [reflexivity |].
  now apply map_alter_same.
Qed.

Lemma map_hover {B : Type} (g : Mesh -> B) (l : list Asset)
    (hits : list nat) (r : Realm) :
  (forall hex m, g (setEmissive hex m) = g m) ->
  (forall k m, g (setEmissiveIntensity k m) = g m) ->
  map g (buildings (hover l hits r)) = map g (buildings r).
Proof.
  intros Hhex Hint. unfold hover.
  destruct hits as [| i rest]; [now apply map_restoreHovered |].
  destruct (buildings r !! i) as [object |]; [| reflexivity].
  destruct (truthy (assetId (userData object))); [| reflexivity].
  destruct (decide (hoveredMesh r = Some i)); [reflexivity |].
  cbn [buildings].
  destruct (decide (Some i = draggedObject r));
    [now apply map_restoreHovered |].
  rewrite map_alter_same by (intros m; now rewrite Hint, Hhex).
  now apply map_restoreHovered.
Qed.

Lemma hover_keeps_drag_state (l : list Asset) (hits : list nat) (r : Realm) :
  isDragging (hover l hits r) = isDragging r
  /\ draggedObject (hover l hits r) = draggedObject r
  /\ isDraggingState (hover l hits r) = isDraggingState r.
Proof.
  unfold hover. destruct hits as [| i rest]; [auto |].
  destruct (buildings r !! i) as [object |]; [| auto].
  destruct (truthy (assetId (userData object))); [| auto].
  destruct (decide (hoveredMesh r = Some i)); auto.
Qed.

Lemma session_idle (r : Realm) : isDragging r = false -> session r = None.
Proof. unfold session. now intros ->. Qed.

Section Idle.

Variable log10 : Q -> Q.

Lemma step_passive_idle (e : Event) (w : World) :
  isPassive e = true -> isDragging (realm w) = false ->
  assets (step log10 e w) = assets w
  /\ moves (step log10 e w) = moves w
  /\ isDragging (realm (step log10 e w)) = false
  /\ isDraggingState (realm (step log10 e w)) = isDraggingState (realm w)
  /\ map position (buildings (realm (step log10 e w)))
     = map position (buildings (realm w))
  /\ map userData (buildings (realm (step log10 e w)))
     = map userData (buildings (realm w)).
Proof.
  intros Hpassive Hidle. pose proof (session_idle _ Hidle) as Hs.
  destruct e as [hits | planeHit hits | |]; try discriminate Hpassive;
    cbn [step].
  - cbn [assets moves realm]. unfold onPointerMove. rewrite Hs.
    destruct (hover_keeps_drag_state (assets w) hits (realm w))
      as (Hd & _ & Hds).
    rewrite Hd, Hds.
    repeat (split; [first [reflexivity | assumption] |]).
    split; now apply map_hover.
  - unfold onPointerUp. rewrite Hs. cbn [assets moves realm]. auto 10.
Qed.

(** X3 (no press, no drag).  From an idle board, pointer moves and
    releases in any number and order change neither the store, nor the
    log, nor the position, identifier or anchor of any building, and never
    turn dragging on. *)
Theorem passive_events_change_nothing (events : list Event) (w : World) :
  forallb isPassive events = true ->
  isDragging (realm w) = false ->
  let w' := run log10 events w in
  assets w' = assets w
  /\ moves w' = moves w
  /\ isDragging (realm w') = false
  /\ isDraggingState (realm w') = isDraggingState (realm w)
  /\ map position (buildings (realm w')) = map position (buildings (realm w))
  /\ map userData (buildings (realm w')) = map userData (buildings (realm w)).
Proof.
  revert w. induction events as [| e events IH]; intros w Hall Hidle.
  - cbn. auto 10.
  - cbn [forallb] in Hall. apply andb_true_iff in Hall as [He Hall].
    destruct (step_passive_idle e w He Hidle)
      as (Ha & Hm & Hd & Hds & Hp & Hu).
    specialize (IH (step log10 e w) Hall Hd). cbv zeta in IH |- *.
    rewrite run_cons. destruct IH as (Ha' & Hm' & Hd' & Hds' & Hp' & Hu').
    repeat split; congruence.
Qed.

End Idle.

Lemma passive_events_change_nothing_witness :
  let w := mount log10_stub [entityE1; entityE2] in
  let events := [MouseMove (planePoint 3 3) [0%nat]; MouseUp;
                 MouseMove (planePoint 5 5) []] in
  forallb isPassive events = true
  /\ isDragging (realm w) = false
  /\ moves (run log10_stub events w) = []
  /\ assets (run log10_stub events w) = [entityE1; entityE2].
Proof.
  intros w events. split; [reflexivity |]. split; [reflexivity |].
  pose proof (passive_events_change_nothing log10_stub events w
                eq_refl eq_refl) as Hthm.
  cbv zeta in Hthm. destruct Hthm as (Ha & Hm & _). split; assumption.
Defined.

(** *** The store along a trace *)

Lemma sansPosition_handleAssetMove (i : string) (p : GridPosition)
    (l : list Asset) :
  map sansPosition (handleAssetMove i p l) = map sansPosition l.
Proof.
  unfold handleAssetMove. rewrite map_map. apply map_ext. intros a.
  destruct (String.eqb (id a) i); reflexivity.
Qed.

Lemma id_sansPosition (l : list Asset) : map id (map sansPosition l) = map id l.
Proof. rewrite map_map. reflexivity. Qed.

Section Store.

Variable log10 : Q -> Q.

Lemma assets_step (e : Event) (w : World) :
  assets (step log10 e w) = assets w
  \/ exists r i p, onPointerUp true (assets w) (realm w) = (r, Some (i, p))
       /\ assets (step log10 e w)
          = handleAssetMove i (atCell p) (assets w).
Proof.
  destruct e as [hits | planeHit hits | |]; cbn [step assets]; auto.
  destruct (onPointerUp true (assets w) (realm w)) as [r [[i p] |]] eqn:Hcall;
    cbn [assets]; eauto 6.
Qed.

Lemma sansPosition_run (events : list Event) (w : World) :
  map sansPosition (assets (run log10 events w)) = map sansPosition (assets w).
Proof.
  revert w. induction events as [| e events IH]; intros w; [reflexivity |].
  rewrite run_cons, IH.
  destruct (assets_step e w) as [-> | (r & i & p & _ & ->)];
    [reflexivity | apply sansPosition_handleAssetMove].
Qed.

(** X4 (entities are never added, dropped or reordered).  Whatever the
    events, the store keeps its length and order, and every entry keeps
    every field but [gridPosition]. *)
Theorem run_keeps_entities (events : list Event) (w : World) :
  let w' := run log10 events w in
  map sansPosition (assets w') = map sansPosition (assets w)
  /\ map id (assets w') = map id (assets w)
  /\ length (assets w') = length (assets w).
Proof.
  intros w'. pose proof (sansPosition_run events w) as Hsame. fold w' in Hsame.
  split; [exact Hsame |]. split.
  - rewrite <- (id_sansPosition (assets w')), Hsame. apply id_sansPosition.
  - rewrite <- (length_map sansPosition (assets w')), Hsame.
    apply length_map.
Qed.

(** *** Scene and store stay in step *)

Lemma userData_onPointerUp_revert (l : list Asset) (r : Realm) :
  snd (onPointerUp true l r) = None ->
  map userData (buildings (fst (onPointerUp true l r)))
  = map userData (buildings r).
Proof.
  unfold onPointerUp.
  destruct (session r) as [[k object] |] eqn:Hs; [| reflexivity].
  apply session_lookup in Hs as (_ & _ & Hk).
  destruct (isOccupied l _ _ _); cbn [fst snd buildings]; [| discriminate].
  intros _. now apply map_insert_same with object.
Qed.

Lemma inStep_step (e : Event) (w : World) :
  inStep log10 w -> inStep log10 (step log10 e w).
Proof.
  unfold inStep. intros Hin.
  destruct e as [hits | planeHit hits | |]; cbn [step].
  - cbn [realm assets]. now rewrite userData_onPointerDown.
  - cbn [realm assets]. now rewrite userData_onPointerMove.
  - pose proof (userData_onPointerUp_revert (assets w) (realm w)) as Hrev.
    destruct (onPointerUp true (assets w) (realm w)) as [r [[i p] |]].
    + reflexivity.
    + cbn [realm assets]. cbn [fst snd] in Hrev. now rewrite Hrev.
  - reflexivity.
Qed.

End Store.

Lemma assetId_buildMesh (log10 : Q -> Q) (l : list Asset) :
  map assetId (map userData (imap (buildMesh log10) l)) = map id l.
Proof.
  rewrite map_map. apply list_eq. intros i.
  change (map ?f) with (fmap (M := list) f).
  rewrite !list_lookup_fmap, list_lookup_imap.
  destruct (l !! i); reflexivity.
Qed.

(** X5 (scene and store stay in step).  In every state the application
    reaches there is one building per entity, in the order of the store,
    and the building's user data (identifier, colour, cell and anchor) is
    what a fresh build from the current store gives. *)
Theorem scene_matches_store (log10 : Q -> Q) (initial : list Asset)
    (events : list Event) :
  let w := run log10 events (mount log10 initial) in
  map userData (buildings (realm w))
  = map userData (imap (buildMesh log10) (assets w))
  /\ length (buildings (realm w)) = length (assets w)
  /\ map (fun m => assetId (userData m)) (buildings (realm w))
     = map id (assets w).
Proof.
  intros w.
  assert (inStep log10 w) as Hin.
  { subst w. apply (run_invariant log10 (inStep log10)).
    - apply inStep_step.
    - reflexivity. }
  unfold inStep in Hin. split; [exact Hin |]. split.
  - rewrite <- (length_map userData), Hin, length_map. apply length_imap.
  - rewrite <- (map_map userData assetId), Hin. apply assetId_buildMesh.
Qed.

(** *** Placements stay on the grid *)

Lemma placedInGrid_handleAssetMove (i : string) (p : Cell)
    (l : list Asset) :
  inGrid p -> Forall placedInGrid l ->
  Forall placedInGrid (handleAssetMove i (atCell p) l).
Proof.
  intros Hp Hall. unfold handleAssetMove.
  induction Hall as [| a l Ha Hall IH]; cbn [map]; constructor; [| exact IH].
  destruct (String.eqb (id a) i); [| exact Ha].
  unfold placedInGrid; cbn [withGridPosition gridPosition].
  rewrite atCell_x, atCell_y. change 1%Q with (inject_Z 1).
  rewrite <- !Zle_Qle. exact Hp.
Qed.

Lemma placedInGrid_step (log10 : Q -> Q) (e : Event) (w : World) :
  boardInv w /\ Forall placedInGrid (assets w) ->
  boardInv (step log10 e w) /\ Forall placedInGrid (assets (step log10 e w)).
Proof.
  intros [Hboard Hall]. split; [now apply boardInv_step |].
  destruct (assets_step log10 e w) as [-> | (r & i & p & Hcall & ->)];
    [exact Hall |].
  apply placedInGrid_handleAssetMove; [| exact Hall].
  apply onPointerUp_call in Hcall as (k & object & Hs & _ & -> & _).
  apply session_lookup in Hs as (_ & _ & Hk).
  apply stands_dropCell. destruct Hboard as [Hstands _].
  exact (Forall_lookup_1 _ _ _ _ Hstands Hk).
Qed.

(** X6 (placements stay on the grid).  If every explicit cell of the
    initial list lies within the grid, each coordinate a number between 1
    and [GRID_SIZE], so does every explicit cell of every store the
    application reaches. *)
Theorem placements_stay_in_grid (log10 : Q -> Q) (initial : list Asset)
    (events : list Event) :
  Forall placedInGrid initial ->
  Forall placedInGrid (assets (run log10 events (mount log10 initial))).
Proof.
  intros Hall.
  apply (run_invariant log10
           (fun w => boardInv w /\ Forall placedInGrid (assets w))).
  - apply placedInGrid_step.
  - split; [| exact Hall]. apply boardInv_mount.
    eapply Forall_impl; [exact Hall | exact placedInGrid_tame].
Qed.

Lemma placedInGrid_scenario : Forall placedInGrid [entityE1; entityE2].
Proof.
  repeat constructor; vm_compute; discriminate.
Qed.

Lemma placements_stay_in_grid_witness :
  let events := [MouseDown [0%nat]; MouseMove (planePoint 400 (-400)) [];
                 MouseUp] in
  Forall placedInGrid [entityE1; entityE2]
  /\ Forall placedInGrid
       (assets (run log10_stub events (mount log10_stub [entityE1; entityE2]))).
Proof.
  intros events. split; [exact placedInGrid_scenario |].
  apply (placements_stay_in_grid log10_stub [entityE1; entityE2] events).
  exact placedInGrid_scenario.
Defined.

(** *** One whole gesture *)

Lemma onPointerDown_pick (hits : list nat) (r : Realm) (k : nat)
    (target : Mesh) :
  picked hits r = Some (k, target) ->
  buildings r !! k = Some target
  /\ session (onPointerDown hits r)
     = Some (k, liftUp (setEmissiveIntensity 1 (setEmissive 0xffffff target)))
  /\ (forall j, j <> k ->
        buildings (onPointerDown hits r) !! j = buildings r !! j)
  /\ hoveredAsset (onPointerDown hits r) = hoveredAsset r.
Proof.
  intros Hpick. pose proof (onPointerDown_picked hits r) as Hdown.
  rewrite Hpick in Hdown. destruct Hdown as [Hk Hs].
  split; [exact Hk |]. split; [exact Hs |].
  unfold picked in Hpick. unfold onPointerDown.
  destruct hits as [| i rest]; [discriminate |].
  destruct (buildings r !! i) as [object |] eqn:Hi; [| discriminate].
  destruct (truthy (assetId (userData object))); [| discriminate].
  injection Hpick as -> ->. cbn [buildings hoveredAsset].
  split; [| reflexivity]. intros j Hj. now apply list_lookup_insert_ne.
Qed.

Section Gesture.

Variable log10 : Q -> Q.

(** While a building is held, moves keep the session on it, leave its
    identifier and anchor and every other building alone, and touch
    neither store nor log. *)
Lemma drag_path (path : list (option Vector3 * list nat)) (w : World)
    (k : nat) (m : Mesh) :
  session (realm w) = Some (k, m) ->
  let w' := run log10 (map (fun mv => MouseMove (fst mv) (snd mv)) path) w in
  assets w' = assets w /\ moves w' = moves w
  /\ hoveredAsset (realm w') = hoveredAsset (realm w)
  /\ (forall j, j <> k ->
        buildings (realm w') !! j = buildings (realm w) !! j)
  /\ exists m', session (realm w') = Some (k, m')
       /\ userData m' = userData m.
Proof.
  revert w m. induction path as [| [planeHit hits] path IH]; intros w m Hs.
  - cbn. eauto 10.
  - cbn [map fst snd]. cbv zeta. rewrite run_cons.
    set (w1 := step log10 (MouseMove planeHit hits) w).
    destruct (session_dragTo (assets w) planeHit k m (realm w) Hs)
      as (Hs1 & _ & Hothers).
    assert (realm w1 = dragTo (assets w) planeHit k m (realm w)) as Hr1
      by (subst w1; cbn [step realm]; unfold onPointerMove; now rewrite Hs).
    rewrite <- Hr1 in Hs1, Hothers.
    destruct (IH w1 _ Hs1) as (Ha & Hm & Hh & Ho & m' & Hs' & Hu).
    split; [exact Ha |]. split; [exact Hm |].
    split; [rewrite Hh, Hr1; reflexivity |].
    split; [intros j Hj; rewrite Ho, Hothers by exact Hj; reflexivity |].
    exists m'. split; [exact Hs' | exact Hu].
Qed.

(** A press that picked nothing is followed by hovering and a release that
    finds no session. *)
Lemma idle_path (path : list (option Vector3 * list nat)) (w : World) :
  isDragging (realm w) = false ->
  let w' := run log10
              (map (fun mv => MouseMove (fst mv) (snd mv)) path ++ [MouseUp]) w in
  assets w' = assets w /\ moves w' = moves w
  /\ isDragging (realm w') = false
  /\ map position (buildings (realm w')) = map position (buildings (realm w))
  /\ map userData (buildings (realm w')) = map userData (buildings (realm w)).
Proof.
  revert w. induction path as [| [planeHit hits] path IH]; intros w Hidle;
    cbn [map app fst snd]; cbv zeta; rewrite run_cons.
  - destruct (step_passive_idle log10 MouseUp w eq_refl Hidle)
      as (Ha & Hm & Hd & _ & Hp & Hu).
    cbn [run fold_left]. auto.
  - destruct (step_passive_idle log10 (MouseMove planeHit hits) w eq_refl Hidle)
      as (Ha & Hm & Hd & _ & Hp & Hu).
    destruct (IH _ Hd) as (Ha' & Hm' & Hd' & Hp' & Hu').
    repeat split; congruence.
Qed.

End Gesture.

(** X7 (one whole gesture).  On a newly mounted board whose explicit cells
    have whole coordinates, a press, any moves and a release end idle and
    in one of two ways: nothing was committed, the store is the initial one
    and every building has the position and user data the build gave it; or
    the building picked was that of entity [k], one commit moved that
    entity to a cell of the grid that no other entity held, and the scene
    was built again from the new store. *)
Theorem gesture_commits_or_restores (log10 : Q -> Q) (initial : list Asset)
    (hits : list nat) (path : list (option Vector3 * list nat)) :
  Forall wholePlaced initial ->
  let w0 := mount log10 initial in
  let w := run log10 (gesture hits path) w0 in
  isDragging (realm w) = false
  /\ ((moves w = [] /\ assets w = initial
       /\ map position (buildings (realm w))
          = map position (buildings (realm w0))
       /\ map userData (buildings (realm w))
          = map userData (buildings (realm w0)))
      \/ (exists k a cell,
            head hits = Some k /\ initial !! k = Some a
            /\ inGrid cell /\ ~ heldByOther initial (id a) cell
            /\ moves w = [(id a, cell)]
            /\ assets w = handleAssetMove (id a) (atCell cell) initial
            /\ buildings (realm w) = imap (buildMesh log10) (assets w))).
Proof.
  intros Hwhole w0 w. subst w. unfold gesture. rewrite run_cons.
  set (w1 := step log10 (MouseDown hits) w0).
  destruct (picked hits (realm w0)) as [[k target] |] eqn:Hpick.
  - (* a building is picked up *)
    destruct (onPointerDown_pick hits (realm w0) k target Hpick)
      as (Hk & Hs1 & Hothers1 & _).
    change (onPointerDown hits (realm w0)) with (realm w1) in Hs1, Hothers1.
    rewrite run_app.
    set (w2 := run log10 (map (fun mv => MouseMove (fst mv) (snd mv)) path) w1).
    destruct (drag_path log10 path w1 k _ Hs1)
      as (Ha2 & Hm2 & _ & Hothers2 & m' & Hs2 & Hu2).
    fold w2 in Ha2, Hm2, Hothers2, Hs2.
    change (assets w1) with initial in Ha2. change (moves w1) with (@nil (string * Cell)) in Hm2.
    cbn [userData liftUp setPosition setEmissiveIntensity setEmissive] in Hu2.
    (* the picked building was built from entity [k] *)
    cbn [w0 mount realm effect buildings] in Hk.
    rewrite list_lookup_imap in Hk.
    destruct (initial !! k) as [a |] eqn:Ha; [| discriminate Hk].
    cbn in Hk. injection Hk as Htarget.
    assert (assetId (userData m') = id a) as Hid
      by (rewrite Hu2, <- Htarget; reflexivity).
    assert (originalPos (userData m') = position target) as Hanchor
      by (rewrite Hu2, <- Htarget; reflexivity).
    change (run log10 [MouseUp] w2) with (step log10 MouseUp w2).
    destruct (heldByOther_cases (assets w2) (assetId (userData m'))
                (dropCell m')) as [Hocc | Hfree].
    + (* released over a held cell: everything is back in place *)
      destruct (step_MouseUp_occupied log10 w2 k m' Hs2 Hocc)
        as (Hstep & _ & Hbuild).
      rewrite Hstep. cbn [realm moves assets].
      split; [unfold onPointerUp; rewrite Hs2; reflexivity |].
      left. split; [exact Hm2 |]. split; [exact Ha2 |].
      rewrite Hbuild.
      assert (Hrest : forall j, j <> k ->
                buildings (realm w2) !! j = buildings (realm w0) !! j)
        by (intros j Hj; rewrite Hothers2, Hothers1 by exact Hj; reflexivity).
      assert (Hk0 : buildings (realm w0) !! k = Some target).
      { cbn [w0 mount realm effect buildings].
        rewrite list_lookup_imap, Ha, <- Htarget. reflexivity. }
      assert (Hlen : (k < length (buildings (realm w2)))%nat).
      { apply session_lookup in Hs2 as (_ & _ & Hk2).
        eapply lookup_lt_Some, Hk2. }
      split; apply list_eq; intros j;
        change (map ?f) with (fmap (M := list) f);
        rewrite !list_lookup_fmap;
        (destruct (decide (j = k)) as [-> | Hj];
         [ rewrite list_lookup_insert_eq by exact Hlen; rewrite Hk0; cbn;
           f_equal
         | rewrite list_lookup_insert_ne by auto; now rewrite Hrest ]).
      * exact Hanchor.
      * rewrite Hu2, <- Htarget. reflexivity.
    + (* released over a free cell: one commit, and a new scene *)
      destruct (step_MouseUp_free log10 w2 k m' Hs2 Hfree) as (_ & Hstep).
      rewrite Hstep. cbn [realm moves assets effect isDragging buildings].
      split; [reflexivity |]. right.
      exists k, a, (dropCell m').
      rewrite Ha2, Hm2, Hid in *.
      split.
      { unfold picked in Hpick. destruct hits as [| i rest]; [discriminate |].
        destruct (buildings (realm w0) !! i) as [o |]; [| discriminate].
        destruct (truthy (assetId (userData o))); [| discriminate].
        now injection Hpick as -> _. }
      split; [exact Ha |].
      split.
      { assert (boardInv w2) as [Hstands _].
        { subst w2 w1. apply run_invariant; [apply boardInv_step |].
          apply boardInv_step, boardInv_mount.
          eapply Forall_impl; [exact Hwhole | exact wholePlaced_tame]. }
        apply session_lookup in Hs2 as (_ & _ & Hk2).
        apply stands_dropCell. exact (Forall_lookup_1 _ _ _ _ Hstands Hk2). }
      split; [exact Hfree |]. split; [reflexivity |]. split; reflexivity.
  - (* nothing is picked up: the press changes nothing *)
    pose proof (onPointerDown_picked hits (realm w0)) as Hdown.
    rewrite Hpick in Hdown.
    assert (w1 = w0) as -> by (subst w1; cbn [step]; rewrite Hdown; reflexivity).
    destruct (idle_path log10 path w0 eq_refl) as (Ha & Hm & Hd & Hp & Hu).
    split; [exact Hd |]. left. auto.
Qed.

Lemma gesture_commits_or_restores_witness :
  Forall wholePlaced [entityE1; entityE2]
  /\ isDragging
       (realm (run log10_stub
                 (gesture [0%nat] [(planePoint (-1) (-3), [])])
                 (mount log10_stub [entityE1; entityE2]))) = false.
Proof.
  assert (Forall wholePlaced [entityE1; entityE2]) as Hwhole.
  { apply Forall_cons_2; [eexists; reflexivity |].
    apply Forall_cons_2; [eexists; reflexivity | apply Forall_nil_2]. }
  split; [exact Hwhole |].
  pose proof (gesture_commits_or_restores log10_stub [entityE1; entityE2]
                [0%nat] [(planePoint (-1) (-3), [])] Hwhole) as Hthm.
  cbv zeta in Hthm. exact (proj1 Hthm).
Defined.

(** *** How commits compose *)

(** X8 (commits compose).  Of two commits for the same identifier the
    later one wins; commits for different identifiers can be applied in
    either order. *)
Theorem handleAssetMove_compose (i j : string) (p q : GridPosition)
    (l : list Asset) :
  handleAssetMove i p (handleAssetMove i q l) = handleAssetMove i p l
  /\ (i <> j ->
      handleAssetMove i p (handleAssetMove j q l)
      = handleAssetMove j q (handleAssetMove i p l)).
Proof.
  unfold handleAssetMove. rewrite !map_map. split.
  - apply map_ext. intros a.
    destruct (String.eqb (id a) i) eqn:Hi; cbn [withGridPosition id];
      rewrite Hi; reflexivity.
  - intros Hij. apply map_ext. intros a.
    destruct (String.eqb (id a) i) eqn:Hi;
      destruct (String.eqb (id a) j) eqn:Hj;
      cbn [withGridPosition id]; rewrite ?Hi, ?Hj; try reflexivity.
    apply String.eqb_eq in Hi, Hj. congruence.
Qed.

Lemma handleAssetMove_compose_witness :
  "E1"%string <> "E2"%string
  /\ handleAssetMove "E1" (atCell {| pos_x := 5; pos_y := 5 |})
       (handleAssetMove "E2" (atCell {| pos_x := 6; pos_y := 6 |})
          [entityE1; entityE2])
     = handleAssetMove "E2" (atCell {| pos_x := 6; pos_y := 6 |})
         (handleAssetMove "E1" (atCell {| pos_x := 5; pos_y := 5 |})
            [entityE1; entityE2]).
Proof.
  assert ("E1"%string <> "E2"%string) as Hne by discriminate.
  split; [exact Hne |].
  exact (proj2 (handleAssetMove_compose "E1" "E2"
                  (atCell {| pos_x := 5; pos_y := 5 |})
                  (atCell {| pos_x := 6; pos_y := 6 |})
                  [entityE1; entityE2]) Hne).
Defined.

(** *** The application as shipped *)

(** X9 (the application as shipped).  Started from [INITIAL_ASSETS], the
    application never double-books a cell, keeps every placement on the
    grid, and always shows the same seven entities as seven buildings. *)
Theorem shipped_board_stays_sound (log10 : Q -> Q) (events : list Event) :
  let w := run log10 events (mount log10 INITIAL_ASSETS) in
  noDoubleBooking (assets w)
  /\ Forall placedInGrid (assets w)
  /\ map id (assets w)
     = ["a1"; "a2"; "a3"; "a4"; "a5"; "a6"; "a7"]%string
  /\ length (buildings (realm w)) = 7%nat.
Proof.
  intros w.
  assert (noDoubleBooking (assets w)) as Hbook.
  { subst w.
    apply (run_invariant log10 (fun w => noDoubleBooking (assets w))).
    - apply noDoubleBooking_step.
    - apply noDoubleBooking_checked. vm_compute. reflexivity. }
  assert (Forall placedInGrid (assets w)) as Hgrid.
  { subst w.
    apply (run_invariant log10
             (fun w => boardInv w /\ Forall placedInGrid (assets w))).
    - apply placedInGrid_step.
    - assert (Forall placedInGrid INITIAL_ASSETS) as Hinit
        by (repeat constructor; vm_compute; discriminate).
      split; [| exact Hinit]. apply boardInv_mount.
      eapply Forall_impl; [exact Hinit | exact placedInGrid_tame]. }
  assert (map sansPosition (assets w) = map sansPosition INITIAL_ASSETS)
    as Hsame by apply sansPosition_run.
  assert (inStep log10 w) as Hstep.
  { subst w. apply (run_invariant log10 (inStep log10));
      [apply inStep_step | reflexivity]. }
  split; [exact Hbook |]. split; [exact Hgrid |]. split.
  - rewrite <- (id_sansPosition (assets w)), Hsame. reflexivity.
  - unfold inStep in Hstep.
    rewrite <- (length_map userData), Hstep, length_map, length_imap.
    rewrite <- (length_map sansPosition), Hsame. reflexivity.
Qed.

(** *** The tooltip *)

Lemma find_by_id (l : list Asset) (k : nat) (a : Asset) :
  NoDup (map id l) -> l !! k = Some a ->
  find (fun b => String.eqb (id b) (id a)) l = Some a.
Proof.
  revert k. induction l as [| b l IH]; intros k Hnd Hk; [discriminate Hk |].
  cbn [map] in Hnd. apply NoDup_cons in Hnd as [Hfresh Hnd].
  destruct k as [| k]; cbn in Hk; cbn [find].
  - injection Hk as ->. now rewrite String.eqb_refl.
  - destruct (String.eqb_spec (id b) (id a)) as [Heq | _]; [| now apply IH with k].
    exfalso. apply Hfresh. rewrite Heq. apply list_elem_of_In, in_map.
    apply list_elem_of_In. eapply list_elem_of_lookup_2, Hk.
Qed.

(** X10 (what the tooltip shows).  With distinct identifiers in the
    store, on an idle board a pointer move whose ray first meets building
    [k], not hovered already, makes [k] the hovered mesh and the tooltip
    asset the entity at index [k] of the current store, stops the
    auto-rotation and changes neither store nor log. *)
Theorem hover_shows_entity (log10 : Q -> Q) (initial : list Asset)
    (events : list Event) (k : nat) (a : Asset) (planeHit : option Vector3)
    (rest : list nat) :
  let w := run log10 events (mount log10 initial) in
  let w' := step log10 (MouseMove planeHit (k :: rest)) w in
  NoDup (map id initial) ->
  isDragging (realm w) = false ->
  hoveredMesh (realm w) <> Some k ->
  assets w !! k = Some a ->
  truthy (id a) = true ->
  hoveredMesh (realm w') = Some k
  /\ hoveredAsset (realm w') = Some a
  /\ controls_autoRotate (realm w') = false
  /\ assets w' = assets w /\ moves w' = moves w.
Proof.
  intros w w' Hnd Hidle Hnew Hk Hid.
  assert (inStep log10 w) as Hstep.
  { subst w. apply (run_invariant log10 (inStep log10));
      [apply inStep_step | reflexivity]. }
  assert (NoDup (map id (assets w))) as Hnd'.
  { rewrite <- (id_sansPosition (assets w)). subst w.
    rewrite sansPosition_run. cbn [mount assets]. now rewrite id_sansPosition. }
  assert (exists m, buildings (realm w) !! k = Some m /\ assetId (userData m) = id a)
    as (m & Hm & Hmid).
  { unfold inStep in Hstep.
    assert (userData <$> buildings (realm w) !! k
            = Some (userData (buildMesh log10 k a))) as Hlook.
    { rewrite <- list_lookup_fmap.
      change (fmap (M := list) userData) with (map userData).
      rewrite Hstep. change (map userData) with (fmap (M := list) userData).
      now rewrite list_lookup_fmap, list_lookup_imap, Hk. }
    destruct (buildings (realm w) !! k) as [m |]; [| discriminate Hlook].
    exists m. split; [reflexivity |]. cbn in Hlook. injection Hlook as ->.
    reflexivity. }
  subst w'. cbn [step realm assets moves]. unfold onPointerMove.
  rewrite (session_idle _ Hidle). unfold hover. rewrite Hm, Hmid, Hid.
  destruct (decide (hoveredMesh (realm w) = Some k)) as [Hsame | _];
    [contradiction |].
  cbn [hoveredMesh hoveredAsset controls_autoRotate].
  split; [reflexivity |]. split; [now apply find_by_id with k |]. auto.
Qed.

Lemma hover_shows_entity_witness :
  let w := run log10_stub [MouseMove (planePoint 0 0) []]
             (mount log10_stub [entityE1; entityE2]) in
  let w' := step log10_stub (MouseMove (planePoint 0 0) [1%nat]) w in
  NoDup (map id [entityE1; entityE2])
  /\ hoveredMesh (realm w) <> Some 1%nat
  /\ hoveredAsset (realm w') = Some entityE2.
Proof.
  intros w w'.
  assert (NoDup (map id [entityE1; entityE2])) as Hnd.
  { cbn. repeat constructor; rewrite ?list_elem_of_In; cbn;
      intuition discriminate. }
  assert (hoveredMesh (realm w) <> Some 1%nat) as Hnew by discriminate.
  split; [exact Hnd |]. split; [exact Hnew |].
  pose proof (hover_shows_entity log10_stub [entityE1; entityE2]
                [MouseMove (planePoint 0 0) []] 1 entityE2 (planePoint 0 0) []
                Hnd eq_refl Hnew eq_refl eq_refl) as Hthm.
  destruct Hthm as (_ & Hasset & _). exact Hasset.
Defined.

(** Moving over empty board in a scene where nothing is hovered leaves the
    tooltip asset as it is. *)
Lemma hover_nothing (l : list Asset) (r : Realm) :
  hoveredMesh r = None ->
  hoveredAsset (hover l [] r) = hoveredAsset r
  /\ hoveredMesh (hover l [] r) = None
  /\ isDragging (hover l [] r) = isDragging r.
Proof. unfold hover. cbn. now intros ->. Qed.

Section Tooltip.

Variable log10 : Q -> Q.

Lemma tooltip_kept (planeHits : list (option Vector3)) (w : World) :
  hoveredMesh (realm w) = None -> isDragging (realm w) = false ->
  hoveredAsset
    (realm (run log10 (map (fun ph => MouseMove ph []) planeHits) w))
  = hoveredAsset (realm w).
Proof.
  revert w. induction planeHits as [| ph planeHits IH]; intros w Hnone Hidle;
    [reflexivity |].
  cbn [map]. rewrite run_cons.
  destruct (hover_nothing (assets w) (realm w) Hnone) as (Hkeep & Hnone' & Hd).
  assert (realm (step log10 (MouseMove ph []) w) = hover (assets w) [] (realm w))
    as Hr by (cbn [step realm]; unfold onPointerMove;
              now rewrite (session_idle _ Hidle)).
  rewrite IH; rewrite Hr; congruence.
Qed.

(** X11 (the tooltip outlives the scene).  The tooltip asset is React
    state, while the hovered mesh is a variable of the effect.  After the
    scene is rebuilt, by a render or by a commit, pointer moves over empty
    board do not clear the tooltip asset: it stays the record read before
    the rebuild. *)
Theorem tooltip_survives_rebuild (planeHits : list (option Vector3))
    (w : World) :
  let idle := map (fun ph => MouseMove ph []) planeHits in
  hoveredAsset (realm (run log10 (Render :: idle) w))
  = hoveredAsset (realm w)
  /\ forall k object,
       session (realm w) = Some (k, object) ->
       ~ heldByOther (assets w) (assetId (userData object)) (dropCell object) ->
       hoveredAsset (realm (run log10 (MouseUp :: idle) w))
       = hoveredAsset (realm w).
Proof.
  intros idle. split.
  - rewrite run_cons. subst idle. now rewrite tooltip_kept.
  - intros k object Hs Hfree. rewrite run_cons.
    destruct (step_MouseUp_free log10 w k object Hs Hfree) as (_ & Hstep).
    subst idle. rewrite tooltip_kept; rewrite Hstep; reflexivity.
Qed.

End Tooltip.

Lemma tooltip_survives_rebuild_witness :
  let w := run log10_stub
             [MouseMove (planePoint 0 0) [0%nat]; MouseDown [0%nat];
              MouseMove (planePoint (-1) (-3)) []]
             (mount log10_stub [entityE1; entityE2]) in
  let w' := run log10_stub [MouseUp; MouseMove (planePoint 9 9) []] w in
  exists object,
    session (realm w) = Some (0%nat, object)
    /\ ~ heldByOther (assets w) (assetId (userData object)) (dropCell object)
    /\ hoveredAsset (realm w') = Some entityE1
    /\ placementOf (assets w') "E1"
       = Some (atCell {| pos_x := 5; pos_y := 5 |}).
Proof.
  intros w w'. eexists. split; [reflexivity |].
  assert (~ heldByOther (assets w) "E1" {| pos_x := 5; pos_y := 5 |}) as Hfree.
  { rewrite heldByOther_isOccupied. vm_compute. discriminate. }
  split; [exact Hfree |]. split; [| vm_compute; reflexivity].
  pose proof (tooltip_survives_rebuild log10_stub [planePoint 9 9] w) as Hthm.
  cbv zeta in Hthm. destruct Hthm as [_ Hthm].
  transitivity (hoveredAsset (realm w));
    [exact (Hthm 0%nat _ eq_refl Hfree) | reflexivity].
Defined.

(** *** Entities without a usable identifier *)

Lemma namedSession_onPointerDown (hits : list nat) (r : Realm) :
  namedSession r -> namedSession (onPointerDown hits r).
Proof.
  intros Hnamed. pose proof (onPointerDown_picked hits r) as Hdown.
  destruct (picked hits r) as [[k target] |] eqn:Hpick;
    [| now rewrite Hdown].
  destruct Hdown as [_ Hs]. intros j m. rewrite Hs. intros [= <- <-].
  unfold picked in Hpick. destruct hits as [| i rest]; [discriminate |].
  destruct (buildings r !! i) as [o |]; [| discriminate].
  destruct (truthy (assetId (userData o))) eqn:Ht; [| discriminate].
  injection Hpick as _ <-. exact Ht.
Qed.

Lemma namedSession_onPointerMove (l : list Asset) (planeHit : option Vector3)
    (hits : list nat) (r : Realm) :
  namedSession r -> namedSession (onPointerMove l planeHit hits r).
Proof.
  intros Hnamed. unfold onPointerMove.
  destruct (session r) as [[k m] |] eqn:Hs.
  - destruct (session_dragTo l planeHit k m r Hs) as (Hs' & _).
    intros j m'. rewrite Hs'. intros [= <- <-]. exact (Hnamed k m Hs).
  - intros j m' Hs'. apply session_lookup in Hs' as (Hd & Hobj & Hj).
    destruct (hover_keeps_drag_state l hits r) as (Hd' & Hobj' & _).
    rewrite Hd' in Hd. rewrite Hobj' in Hobj.
    assert (userData <$> buildings r !! j = Some (userData m')) as Hlook.
    { rewrite <- list_lookup_fmap.
      change (fmap (M := list) userData) with (map userData).
      rewrite <- (map_hover userData l hits r) by reflexivity.
      change (map userData) with (fmap (M := list) userData).
      now rewrite list_lookup_fmap, Hj. }
    destruct (buildings r !! j) as [m |] eqn:Hm; [| discriminate Hlook].
    cbn in Hlook. injection Hlook as <-.
    apply (Hnamed j m). now apply session_intro.
Qed.

Lemma handleAssetMove_lookup_unnamed (i : string) (p : GridPosition)
    (l : list Asset) (k : nat) (a : Asset) :
  truthy i = true -> truthy (id a) = false ->
  l !! k = Some a -> handleAssetMove i p l !! k = Some a.
Proof.
  intros Hi Ha Hk. unfold handleAssetMove.
  change (map ?f) with (fmap (M := list) f).
  rewrite list_lookup_fmap, Hk. cbn.
  destruct (String.eqb_spec (id a) i) as [Heq | _]; [| reflexivity].
  rewrite Heq in Ha. congruence.
Qed.

Section Unnamed.

Variable log10 : Q -> Q.
Variable initial : list Asset.

Lemma unnamedKept_step (e : Event) (w : World) :
  unnamedKept initial w -> unnamedKept initial (step log10 e w).
Proof.
  intros (Hnamed & Hlog & Hkept).
  destruct e as [hits | planeHit hits | |]; cbn [step].
  - split; [now apply namedSession_onPointerDown | auto].
  - split; [now apply namedSession_onPointerMove | auto].
  - destruct (onPointerUp true (assets w) (realm w)) as [r [[i p] |]] eqn:Hcall.
    + apply onPointerUp_call in Hcall as (k & object & Hs & -> & _ & _).
      pose proof (Hnamed k object Hs) as Hid.
      split; [intros j m; cbn; discriminate |].
      split; [apply Forall_app; split; [exact Hlog | repeat constructor; exact Hid] |].
      intros j a Hj Ha. cbn [assets].
      apply handleAssetMove_lookup_unnamed; auto.
    + split; [| auto].
      unfold onPointerUp in Hcall.
      destruct (session (realm w)) as [[k object] |];
        [| injection Hcall as <-; exact Hnamed].
      injection Hcall as <- _. intros j m; cbn; discriminate.
  - split; [intros j m; cbn; discriminate | auto].
Qed.

(** X12 (an entity without identifier cannot be moved).  Every commit
    names a non-empty identifier, and an entry of the initial list whose
    identifier is the empty string is found unchanged, at its index, in
    every store the application reaches. *)
Theorem unnamed_entity_never_moves (events : list Event) :
  let w := run log10 events (mount log10 initial) in
  Forall namedMove (moves w)
  /\ forall k a, initial !! k = Some a -> truthy (id a) = false ->
       assets w !! k = Some a.
Proof.
  intros w.
  assert (unnamedKept initial w) as (_ & Hlog & Hkept).
  { subst w. apply (run_invariant log10 (unnamedKept initial)).
    - apply unnamedKept_step.
    - split; [intros j m; cbn; discriminate |].
      split; [constructor | auto]. }
  split; assumption.
Qed.

End Unnamed.

Lemma release_follows_indicator_witness :
  exists object,
    session (realm scenarioPicked) = Some (0%nat, object)
    /\ highlight_color
         (onPointerMove (assets scenarioPicked) (planePoint (-13) (-17)) []
            (realm scenarioPicked)) = 0xef4444
    /\ snd (onPointerUp true (assets scenarioPicked)
              (onPointerMove (assets scenarioPicked) (planePoint (-13) (-17))
                 [] (realm scenarioPicked))) = None.
Proof.
  eexists. split; [reflexivity |].
  pose proof (release_follows_indicator (assets scenarioPicked)
                (planePoint (-13) (-17)) [] (realm scenarioPicked) 0 _
                eq_refl) as Hthm.
  cbv zeta in Hthm. destruct Hthm as (_ & Hcolor & Hcall).
  split; [exact Hcolor | exact Hcall].
Defined.

Lemma unnamed_entity_never_moves_witness :
  let nameless := {| id := EmptyString; name := "nameless"; type := CASH;
                     value := 1000;
                     gridPosition :=
                       Some (atCell {| pos_x := 3; pos_y := 3 |}) |} in
  let events := [MouseDown [0%nat]; MouseMove (planePoint 9 9) []; MouseUp] in
  [nameless; entityE2] !! 0%nat = Some nameless
  /\ truthy (id nameless) = false
  /\ assets (run log10_stub events (mount log10_stub [nameless; entityE2]))
       !! 0%nat = Some nameless.
Proof.
  intros nameless events. split; [reflexivity |]. split; [reflexivity |].
  destruct (unnamed_entity_never_moves log10_stub [nameless; entityE2] events)
    as [_ Hkept].
  exact (Hkept 0%nat nameless eq_refl eq_refl).
Defined.

(** * Properties of the dashboards *)

(** ** Totals *)

Lemma sumQ_cons (q : Q) (l : list Q) : sumQ (q :: l) = (q + sumQ l)%Q.
Proof. reflexivity. Qed.

Lemma fold_worth (l : list Holding) (acc : Q) :
  (fold_left (fun acc curr => acc + worth curr) l acc
   == acc + sumQ (map worth l))%Q.
Proof.
  revert acc. induction l as [| a l IH]; intros acc; cbn [fold_left map].
  - change (sumQ []) with 0%Q. lra.
  - rewrite IH, sumQ_cons. lra.
Qed.

Lemma totalValue_sum (l : list Holding) :
  (totalValue l == sumQ (map worth l))%Q.
Proof. unfold totalValue. rewrite fold_worth. lra. Qed.

Lemma sumQ_app (l1 l2 : list Q) : (sumQ (l1 ++ l2) == sumQ l1 + sumQ l2)%Q.
Proof.
  induction l1 as [| q l1 IH]; cbn [app].
  - change (sumQ []) with 0%Q. lra.
  - rewrite !sumQ_cons, IH. lra.
Qed.

(** ** Risk *)

Lemma riskDistribution_from (l : list Holding) (d : RiskTiers) :
  let d' :=
    fold_left
      (fun dist a =>
         if Qle_bool (risk a) 3
         then {| low := (low dist + worth a)%Q; med := med dist; high := high dist |}
         else if Qle_bool (risk a) 7
         then {| low := low dist; med := (med dist + worth a)%Q; high := high dist |}
         else {| low := low dist; med := med dist; high := (high dist + worth a)%Q |})
      l d in
  (low d' == low d + sumQ (map worth (List.filter (fun a => Qle_bool (risk a) 3) l)))%Q
  /\ (med d' == med d
      + sumQ (map worth (List.filter
                (fun a => negb (Qle_bool (risk a) 3) && Qle_bool (risk a) 7) l)))%Q
  /\ (high d' == high d
      + sumQ (map worth (List.filter (fun a => negb (Qle_bool (risk a) 7)) l)))%Q
  /\ (low d' + med d' + high d' == low d + med d + high d + sumQ (map worth l))%Q.
Proof.
  revert d. induction l as [| a l IH]; intros d; cbn [fold_left].
  - cbn [List.filter map]. change (sumQ []) with 0%Q. repeat split; lra.
  - cbv zeta in IH |- *. cbn [List.filter map].
    destruct (Qle_bool (risk a) 3) eqn:H3.
    + specialize (IH {| low := (low d + worth a)%Q; med := med d; high := high d |}).
      destruct IH as (Hl & Hm & Hh & Hs). cbn [low med high] in *.
      assert (Qle_bool (risk a) 7 = true) as H7.
      { apply Qle_bool_iff. apply Qle_bool_iff in H3. lra. }
      rewrite H7. cbn [negb andb map]. rewrite !sumQ_cons.
      repeat split; try assumption; [rewrite Hl | rewrite Hs]; lra.
    + destruct (Qle_bool (risk a) 7) eqn:H7.
      * specialize (IH {| low := low d; med := (med d + worth a)%Q; high := high d |}).
        destruct IH as (Hl & Hm & Hh & Hs). cbn [low med high] in *.
        cbn [negb andb map]. rewrite !sumQ_cons.
        repeat split; try assumption; [rewrite Hm | rewrite Hs]; lra.
      * specialize (IH {| low := low d; med := med d; high := (high d + worth a)%Q |}).
        destruct IH as (Hl & Hm & Hh & Hs). cbn [low med high] in *.
        cbn [negb andb map]. rewrite !sumQ_cons.
        repeat split; try assumption; [rewrite Hh | rewrite Hs]; lra.
Qed.

(** X13 (the risk tiers split the total).  The low tier of
    [riskDistribution] is the worth of the entries with a score of at most
    3 and the high tier that of the entries with a score above 7, each
    added up in list order; for whole amounts that add without rounding,
    the low, medium and high amounts add up to [totalValue]. *)
Theorem riskDistribution_partitions_total (assets : list Holding) :
  let dist := riskDistribution assets in
  (exactAmounts assets ->
   (low dist + med dist + high dist == totalValue assets)%Q)
  /\ (low dist
      == totalValue (List.filter (fun a => Qle_bool (risk a) 3) assets))%Q
  /\ (high dist
      == totalValue (List.filter (fun a => negb (Qle_bool (risk a) 7)) assets))%Q.
Proof.
  intros dist. subst dist. unfold riskDistribution.
  destruct (riskDistribution_from assets {| low := 0; med := 0; high := 0 |})
    as (Hl & _ & Hh & Hs).
  cbv zeta in Hl, Hh, Hs. cbn [low med high] in Hl, Hh, Hs.
  rewrite !totalValue_sum.
  split; [intros _; rewrite Hs; lra |].
  split; [rewrite Hl | rewrite Hh]; lra.
Qed.

Lemma fold_riskScore (l : list Holding) (acc : Q) :
  (fold_left (fun acc a => acc + worth a * risk a) l acc
   == acc + sumQ (map (fun a => worth a * risk a) l))%Q.
Proof.
  revert acc. induction l as [| a l IH]; intros acc; cbn [fold_left map].
  - change (sumQ []) with 0%Q. lra.
  - rewrite IH, sumQ_cons. lra.
Qed.

(** Between the least and the greatest score, each weighted by worth. *)
Lemma riskScore_between (lo hi : Q) (l : list Holding) :
  Forall (fun a => 0 <= worth a /\ lo <= risk a <= hi)%Q l ->
  (0 <= sumQ (map worth l)
   /\ lo * sumQ (map worth l) <= sumQ (map (fun a => worth a * risk a) l)
   /\ sumQ (map (fun a => worth a * risk a) l) <= hi * sumQ (map worth l))%Q.
Proof.
  induction 1 as [| a l (Hw & Hlo & Hhi) _ (IH0 & IH1 & IH2)]; cbn [map].
  - change (sumQ []) with 0%Q. repeat split; lra.
  - rewrite !sumQ_cons.
    pose proof (Qmult_le_compat_r _ _ _ Hlo Hw) as H1.
    pose proof (Qmult_le_compat_r _ _ _ Hhi Hw) as H2.
    rewrite (Qmult_comm (risk a)) in H1, H2.
    repeat split; lra.
Qed.

(** X14 (the weighted risk).  A portfolio whose total is zero, the empty
    one included, has weighted risk 0 instead of a division by zero.  For
    whole amounts and whole scores that add and multiply without rounding
    and a non-zero total, the weighted risk lies between any two whole
    bounds, the lower one not negative, that hold for every single
    score. *)
Theorem weightedRisk_bounds (assets : list Holding) (lo hi : Z) :
  ((totalValue assets == 0)%Q -> weightedRisk assets = 0%Q)
  /\ (exactAmounts assets -> Forall wholeRisk assets ->
      Forall (fun a => inject_Z lo <= risk a <= inject_Z hi)%Q assets ->
      0 <= lo ->
      (inject_Z hi * totalValue assets < inject_Z (2 ^ 53))%Q ->
      ~ (totalValue assets == 0)%Q ->
      (inject_Z lo <= weightedRisk assets <= inject_Z hi)%Q).
Proof.
  unfold weightedRisk. split.
  - intros Hzero. apply Qeq_bool_iff in Hzero. now rewrite Hzero.
  - intros [Hwhole _] _ Hbounds _ _ Hpos.
    assert (Forall (fun a => 0 <= worth a
                             /\ inject_Z lo <= risk a <= inject_Z hi)%Q
              assets) as Hall.
    { apply List.Forall_forall. intros a Ha.
      rewrite List.Forall_forall in Hwhole, Hbounds.
      split; [| now apply Hbounds].
      destruct (Hwhole a Ha) as (n & Hn & ->).
      change 0%Q with (inject_Z 0). now rewrite <- Zle_Qle. }
    destruct (Qeq_bool (totalValue assets) 0) eqn:Hz;
      [apply Qeq_bool_iff in Hz; contradiction |].
    destruct (riskScore_between _ _ assets Hall) as (H0 & H1 & H2).
    rewrite fold_riskScore. rewrite totalValue_sum in Hpos |- *.
    assert (0 < sumQ (map worth assets))%Q as Hgt.
    { apply Qle_lteq in H0 as [Hlt | Heq]; [exact Hlt |].
      exfalso. apply Hpos. symmetry. exact Heq. }
    split.
    + apply Qle_shift_div_l; [exact Hgt | lra].
    + apply Qle_shift_div_r; [exact Hgt | lra].
Qed.



(** ** Allocation *)

Lemma orZero_value (o : option Q) :
  (orZero o == match o with Some c => c | None => 0 end)%Q.
Proof.
  destruct o as [c |]; cbn; [| reflexivity].
  destruct (Qeq_bool c 0) eqn:Hz; [| reflexivity].
  apply Qeq_bool_iff in Hz. now rewrite Hz.
Qed.

Lemma sumQ_perm (l l' : list Q) : Permutation l l' -> (sumQ l == sumQ l')%Q.
Proof.
  induction 1 as [| q l l' _ IH | p q l | l l' l'' _ IH1 _ IH2].
  - reflexivity.
  - rewrite !sumQ_cons, IH. reflexivity.
  - rewrite !sumQ_cons. lra.
  - now rewrite IH1.
Qed.

Section AllocationFacts.

Context {K : Type} `{EqDecision K}.

Implicit Types (k : K) (counts : list (K * Q)) (key : Holding -> K).

Lemma lookupCount_assign_same k v counts :
  lookupCount k (assign k v counts) = Some v.
Proof.
  induction counts as [| [k' c] rest IH]; cbn.
  - now rewrite decide_True.
  - destruct (decide (k' = k)) as [-> | Hne]; cbn.
    + now rewrite decide_True.
    + now rewrite decide_False.
Qed.

Lemma lookupCount_assign_other k k' v counts :
  k' <> k -> lookupCount k' (assign k v counts) = lookupCount k' counts.
Proof.
  intros Hne. induction counts as [| [k'' c] rest IH]; cbn.
  - rewrite decide_False by auto. reflexivity.
  - destruct (decide (k'' = k)) as [-> | Hk]; cbn.
    + rewrite !decide_False by auto. reflexivity.
    + destruct (decide (k'' = k')); [reflexivity | exact IH].
Qed.

Lemma lookupCount_None k counts :
  lookupCount k counts = None <-> ~ In k (map fst counts).
Proof.
  induction counts as [| [k' c] rest IH]; cbn.
  - tauto.
  - destruct (decide (k' = k)) as [-> | Hne].
    + split; [discriminate | intros Habs; exfalso; auto].
    + rewrite IH. tauto.
Qed.

Lemma lookupCount_In k v counts :
  NoDup (map fst counts) ->
  (In (k, v) counts <-> lookupCount k counts = Some v).
Proof.
  induction counts as [| [k' c] rest IH]; cbn; intros Hnd.
  - split; [tauto | discriminate].
  - apply NoDup_cons in Hnd as [Hfresh Hnd]. rewrite list_elem_of_In in Hfresh.
    destruct (decide (k' = k)) as [-> | Hne].
    + split.
      * intros [[= ->] | Hin]; [reflexivity |].
        exfalso. apply Hfresh. change k with (fst (k, v)). now apply in_map.
      * intros [= ->]. now left.
    + rewrite <- (IH Hnd). split; [intros [[= ? ?] | ?]; [contradiction | assumption] | tauto].
Qed.

Lemma keys_assign k v counts :
  map fst (assign k v counts)
  = match lookupCount k counts with
    | Some _ => map fst counts
    | None => map fst counts ++ [k]
    end.
Proof.
  induction counts as [| [k' c] rest IH]; cbn; [reflexivity |].
  destruct (decide (k' = k)) as [-> | Hne]; cbn; [reflexivity |].
  rewrite IH. now destruct (lookupCount k rest).
Qed.

Lemma NoDup_assign k v counts :
  NoDup (map fst counts) -> NoDup (map fst (assign k v counts)).
Proof.
  intros Hnd. rewrite keys_assign.
  destruct (lookupCount k counts) eqn:Hlook; [exact Hnd |].
  apply lookupCount_None in Hlook.
  apply NoDup_app. split; [exact Hnd |]. split; [| apply NoDup_singleton].
  intros x Hx [-> | []]%list_elem_of_In. now apply list_elem_of_In in Hx.
Qed.

Lemma sum_assign k v counts :
  (sumQ (map snd (assign k v counts))
   == sumQ (map snd counts) + v
      - match lookupCount k counts with Some c => c | None => 0 end)%Q.
Proof.
  induction counts as [| [k' c] rest IH]; cbn [assign lookupCount map snd].
  - rewrite sumQ_cons. change (sumQ []) with 0%Q. lra.
  - destruct (decide (k' = k)); cbn [map snd]; rewrite !sumQ_cons;
      [| rewrite IH]; lra.
Qed.

Lemma tally_snoc key (l : list Holding) (a : Holding) :
  tally key (l ++ [a])
  = assign (key a) (orZero (lookupCount (key a) (tally key l)) + worth a)%Q
      (tally key l).
Proof. unfold tally. now rewrite fold_left_app. Qed.

Lemma totalValue_snoc (l : list Holding) (a : Holding) :
  (totalValue (l ++ [a]) == totalValue l + worth a)%Q.
Proof.
  rewrite !totalValue_sum, map_app, sumQ_app. cbn [map].
  rewrite sumQ_cons. change (sumQ []) with 0%Q. lra.
Qed.

Lemma tally_facts key (l : list Holding) :
  NoDup (map fst (tally key l))
  /\ (forall k, In k (map fst (tally key l)) <-> exists a, In a l /\ key a = k)
  /\ (forall k,
        (match lookupCount k (tally key l) with Some c => c | None => 0 end
         == totalValue (List.filter (fun a => bool_decide (key a = k)) l))%Q)
  /\ (sumQ (map snd (tally key l)) == totalValue l)%Q.
Proof.
  induction l as [| a l (Hnd & Hkeys & Hcount & Hsum)] using rev_ind.
  - cbn. split; [constructor |]. split; [| split; [intros k |]; reflexivity].
    intros k. split; [intros [] | intros (a & [] & _)].
  - rewrite tally_snoc.
    set (v := (orZero (lookupCount (key a) (tally key l)) + worth a)%Q).
    split; [now apply NoDup_assign |]. split; [| split].
    + intros k. rewrite keys_assign.
      assert (In k (map fst (tally key l) ++ [key a])
              <-> exists b, In b (l ++ [a]) /\ key b = k) as Hgrow.
      { rewrite in_app_iff, Hkeys. split.
        - intros [(b & Hb & Hk) | [<- | []]].
          + exists b. rewrite in_app_iff. auto.
          + exists a. rewrite in_app_iff. cbn. auto.
        - intros (b & Hb & Hk). apply in_app_iff in Hb as [Hb | [-> | []]].
          + left. eauto.
          + right. now left. }
      destruct (lookupCount (key a) (tally key l)) eqn:Hlook; [| exact Hgrow].
      rewrite <- Hgrow, in_app_iff. split; [auto |].
      intros [Hin | [<- | []]]; [exact Hin |].
      destruct (lookupCount_None (key a) (tally key l)) as [_ Hnone].
      destruct (in_dec (fun x y => decide (x = y)) (key a) (map fst (tally key l)))
        as [Hin | Hout]; [exact Hin |].
      rewrite (Hnone Hout) in Hlook. discriminate.
    + intros k. rewrite List.filter_app. cbn [List.filter].
      destruct (decide (key a = k)) as [<- | Hne].
      * rewrite lookupCount_assign_same, bool_decide_eq_true_2 by reflexivity.
        rewrite totalValue_snoc, <- Hcount. subst v.
        rewrite orZero_value. reflexivity.
      * rewrite lookupCount_assign_other by auto.
        rewrite bool_decide_eq_false_2 by exact Hne.
        rewrite app_nil_r. apply Hcount.
    + rewrite sum_assign, totalValue_snoc, Hsum. subst v.
      rewrite orZero_value. lra.
Qed.

(** *** The sort *)

Lemma insertDesc_perm (e : K * Q) (l : list (K * Q)) :
  Permutation (insertDesc e l) (e :: l).
Proof.
  induction l as [| e' l IH]; cbn; [reflexivity |].
  destruct (Qle_bool (snd e') (snd e)); [reflexivity |].
  rewrite IH. apply perm_swap.
Qed.

Lemma sortDesc_perm (l : list (K * Q)) : Permutation (sortDesc l) l.
Proof.
  induction l as [| e l IH]; cbn; [reflexivity |].
  rewrite insertDesc_perm. now constructor.
Qed.

Lemma insertDesc_sorted (e : K * Q) (l : list (K * Q)) :
  descending l -> descending (insertDesc e l).
Proof.
  unfold descending. induction 1 as [| e' l Hsorted IH Hhd]; cbn.
  - repeat constructor.
  - destruct (Qle_bool (snd e') (snd e)) eqn:Hle.
    + apply Qle_bool_iff in Hle. repeat constructor; assumption.
    + assert (snd e <= snd e')%Q as Hge.
      { destruct (Qlt_le_dec (snd e) (snd e')) as [Hlt | Hge'];
          [now apply Qlt_le_weak |].
        apply Qle_bool_iff in Hge'. congruence. }
      constructor; [exact IH |].
      destruct Hhd as [| e'' l Hrel]; cbn.
      * now constructor.
      * destruct (Qle_bool (snd e'') (snd e)); now constructor.
Qed.

Lemma sortDesc_sorted (l : list (K * Q)) : descending (sortDesc l).
Proof.
  induction l as [| e l IH]; cbn; [constructor | now apply insertDesc_sorted].
Qed.

End AllocationFacts.

(** Part of a list of amounts, none negative, is worth no more than the
    whole. *)
Lemma totalValue_filter_le (keep : Holding -> bool) (l : list Holding) :
  Forall (fun a => 0 <= worth a)%Q l ->
  (0 <= totalValue (List.filter keep l)
   /\ totalValue (List.filter keep l) <= totalValue l)%Q.
Proof.
  rewrite !totalValue_sum.
  induction 1 as [| a l Ha _ [IH0 IH1]]; cbn [List.filter map].
  - change (sumQ []) with 0%Q. split; lra.
  - destruct (keep a); cbn [map]; rewrite !sumQ_cons; split; lra.
Qed.

Lemma filter_all_true {A : Type} (l : list A) :
  List.filter (fun _ => true) l = l.
Proof. induction l as [| a l IH]; cbn; [reflexivity | now rewrite IH]. Qed.

Lemma Sorted_map_snd {K : Type} (l : list (K * Q)) :
  descending l -> Sorted (fun x y => (y <= x)%Q) (map snd l).
Proof.
  unfold descending. induction 1 as [| e l _ IH Hhd]; cbn [map]; constructor;
    [exact IH |].
  destruct Hhd; cbn [map]; now constructor.
Qed.

(** X16 (the allocation bars).  For [allocationByType] and
    [allocationByRegion] alike: the bars come in descending order of
    amount; there is exactly one bar for each key some entry has; the
    amount of a bar is the total worth of the entries with its key, added
    up in list order.  For whole amounts that add without rounding, the
    amounts of the bars add up to [totalValue], and with a non-zero total
    every percentage lies between 0 and 1. *)
Theorem allocation_sorted_and_complete {K : Type} `{EqDecision K}
    (key : Holding -> K) (assets : list Holding) :
  let shares := allocationBy key assets in
  Sorted (fun x y => (y <= x)%Q) (map share_value shares)
  /\ NoDup (map share_key shares)
  /\ (forall k, In k (map share_key shares)
                <-> exists a, In a assets /\ key a = k)
  /\ (forall s, In s shares ->
        (share_value s
         == totalValue
              (List.filter (fun a => bool_decide (key a = share_key s)) assets))%Q)
  /\ (exactAmounts assets ->
      (sumQ (map share_value shares) == totalValue assets)%Q)
  /\ (exactAmounts assets -> ~ (totalValue assets == 0)%Q ->
      Forall (fun s => 0 <= percentage s <= 1)%Q shares).
Proof.
  intros shares. subst shares. unfold allocationBy.
  set (entries := sortDesc (tally key assets)).
  assert (Permutation entries (tally key assets)) as Hperm
    by apply sortDesc_perm.
  destruct (tally_facts key assets) as (Hnd & Hkeys & Hcount & Hsum).
  rewrite !map_map. cbn [share_value share_key percentage].
  assert (Hsnd : (sumQ (map snd entries) == totalValue assets)%Q).
  { rewrite <- Hsum. apply sumQ_perm. now apply Permutation_map. }
  split; [apply Sorted_map_snd, sortDesc_sorted |].
  split.
  { apply NoDup_ListNoDup.
    apply (Permutation_NoDup (l := map fst (tally key assets))).
    - symmetry. now apply Permutation_map.
    - now apply NoDup_ListNoDup. }
  split.
  { intros k. rewrite <- Hkeys. split; apply Permutation_in.
    - now apply Permutation_map.
    - symmetry. now apply Permutation_map. }
  assert (Hbar : forall k v, In (k, v) entries ->
            (v == totalValue
                    (List.filter (fun a => bool_decide (key a = k)) assets))%Q).
  { intros k v Hin. rewrite <- Hcount.
    apply (Permutation_in _ Hperm) in Hin.
    apply (lookupCount_In k v _ Hnd) in Hin. now rewrite Hin. }
  split.
  { intros s Hs. apply in_map_iff in Hs as ([k v] & <- & Hin).
    cbn [share_value share_key fst snd]. now apply Hbar. }
  split; [intros _; exact Hsnd |].
  intros [Hwhole _] Hpos.
  assert (Forall (fun a => 0 <= worth a)%Q assets) as Hnn.
  { eapply Forall_impl; [exact Hwhole |]. intros a (n & Hn & ->).
    change 0%Q with (inject_Z 0). now rewrite <- Zle_Qle. }
  pose proof (totalValue_filter_le (fun _ => true) assets Hnn) as [Hge _].
  rewrite filter_all_true in Hge.
  assert (0 < totalValue assets)%Q as Hgt.
  { apply Qle_lteq in Hge as [Hlt | Heq]; [exact Hlt |].
    exfalso. apply Hpos. symmetry. exact Heq. }
  apply List.Forall_forall. intros s Hs.
  apply in_map_iff in Hs as ([k v] & <- & Hin). cbn [percentage snd].
  pose proof (Hbar k v Hin) as Hv.
  destruct (totalValue_filter_le (fun a => bool_decide (key a = k)) assets Hnn)
    as [Hlo Hhi].
  rewrite <- Hv in Hlo, Hhi. split.
  - apply Qle_shift_div_l; [exact Hgt | lra].
  - apply Qle_shift_div_r; [exact Hgt | lra].
Qed.

(** ** The world map *)

Lemma panels_over (assets : list Holding) (rs : list Region) :
  omap (fun r =>
          let regionAssets := assetsByRegion assets r in
          if Nat.eqb (length regionAssets) 0 then None
          else Some (r, totalValue regionAssets, regionAssets)) rs
  = map (fun r => (r, totalValue (assetsByRegion assets r), assetsByRegion assets r))
      (List.filter (fun r => negb (Nat.eqb (length (assetsByRegion assets r)) 0)) rs).
Proof.
  induction rs as [| r rs IH]; [reflexivity |].
  cbn [omap list_omap List.filter]. cbv zeta.
  destruct (Nat.eqb (length (assetsByRegion assets r)) 0); cbn [negb map];
    now rewrite <- IH.
Qed.

Lemma concat_nonempty (assets : list Holding) (rs : list Region) :
  concat (map (assetsByRegion assets)
            (List.filter
               (fun r => negb (Nat.eqb (length (assetsByRegion assets r)) 0)) rs))
  = concat (map (assetsByRegion assets) rs).
Proof.
  induction rs as [| r rs IH]; [reflexivity |]. cbn [List.filter map concat].
  destruct (assetsByRegion assets r) as [| a g] eqn:Hg; cbn [length Nat.eqb negb].
  - exact IH.
  - cbn [map concat]. now rewrite Hg, IH.
Qed.

Lemma grouped_is_permutation (assets : list Holding) :
  Permutation (concat (map (assetsByRegion assets) regions)) assets.
Proof.
  induction assets as [| a assets IH]; [reflexivity |].
  unfold regions, assetsByRegion in *. cbn [map concat List.filter] in *.
  rewrite !app_nil_r in *.
  destruct (region a); cbn [bool_decide decide_rel];
    repeat match goal with
           | |- context [bool_decide ?P] =>
               first [ rewrite (bool_decide_eq_true_2 P) by reflexivity
                     | rewrite (bool_decide_eq_false_2 P) by discriminate ]
           end.
  all: cbn [app]; rewrite ?app_assoc; rewrite <- ?Permutation_middle;
    rewrite <- ?app_assoc; now constructor.
Qed.

Lemma totalValue_perm (l l' : list Holding) :
  Permutation l l' -> (totalValue l == totalValue l')%Q.
Proof.
  intros Hperm. rewrite !totalValue_sum.
  apply sumQ_perm. now apply Permutation_map.
Qed.

Lemma totalValue_concat (groups : list (list Holding)) :
  (sumQ (map totalValue groups) == totalValue (concat groups))%Q.
Proof.
  induction groups as [| g groups IH]; cbn [map concat].
  - reflexivity.
  - rewrite sumQ_cons, IH, !totalValue_sum, map_app, sumQ_app. reflexivity.
Qed.

(** X17 (the world map shows every asset once).  The cards of all panels
    together are a rearrangement of the asset list; a panel is never
    empty, holds exactly the assets of its region in list order and shows
    their total; no region has two panels; for whole amounts that add
    without rounding, the panel totals add up to [totalValue]. *)
Theorem worldMap_shows_each_asset_once (assets : list Holding) :
  let panels := worldMapPanels assets in
  Permutation (concat (map snd panels)) assets
  /\ Forall (fun p => snd p <> []
                      /\ snd p = assetsByRegion assets (fst (fst p))
                      /\ snd (fst p) = totalValue (snd p)) panels
  /\ NoDup (map (fun p => fst (fst p)) panels)
  /\ (exactAmounts assets ->
      (sumQ (map (fun p => snd (fst p)) panels) == totalValue assets)%Q).
Proof.
  intros panels. subst panels. unfold worldMapPanels.
  rewrite panels_over.
  set (shown := List.filter
                  (fun r => negb (Nat.eqb (length (assetsByRegion assets r)) 0))
                  regions).
  assert (Hcards : Permutation
            (concat (map (assetsByRegion assets) shown)) assets).
  { subst shown. rewrite concat_nonempty. apply grouped_is_permutation. }
  rewrite !map_map. cbn [fst snd].
  split; [exact Hcards |]. split; [| split].
  - apply List.Forall_forall. intros p Hp.
    apply in_map_iff in Hp as (r & <- & Hr). cbn [fst snd].
    subst shown. apply filter_In in Hr as [_ Hr].
    split; [| split; reflexivity].
    intros Hnil. rewrite Hnil in Hr. discriminate Hr.
  - rewrite map_id. subst shown. apply NoDup_ListNoDup, List.NoDup_filter.
    unfold regions. repeat constructor; cbn; intuition discriminate.
  - intros _. rewrite <- (map_map (assetsByRegion assets) totalValue).
    rewrite totalValue_concat. now apply totalValue_perm.
Qed.

(** ** The oracle service *)

Lemma orText_truthy (s : option string) (fallback : string) :
  truthy fallback = true -> truthy (orText s fallback) = true.
Proof.
  intros Hfb. unfold orText. destruct s as [t |]; [| exact Hfb].
  destruct (truthy t) eqn:Ht; [exact Ht | exact Hfb].
Qed.

Lemma extractSources_titled (chunks : option (list GroundingChunk)) :
  Forall (fun s => truthy (title s) = true) (extractSources chunks)
  /\ (length (extractSources chunks)
      <= match chunks with Some cs => length cs | None => 0 end)%nat.
Proof.
  unfold extractSources.
  destruct chunks as [cs |]; [| split; [apply Forall_nil_2 | reflexivity]].
  induction cs as [| chunk cs [IHt IHl]]; cbn [omap list_omap length];
    [split; [apply Forall_nil_2 | reflexivity] |].
  destruct (web chunk) as [w |]; cbn [length].
  - split; [| lia]. apply Forall_cons_2; [| exact IHt].
    cbn [title]. now apply orText_truthy.
  - split; [exact IHt | lia].
Qed.

(** With a key the analysis always comes back with a text. *)
Lemma analyzeMacroCycle_with_key (key : string)
    (primary fallback : Outcome GenerateContentResponse) :
  truthy key = true ->
  exists result,
    analyzeMacroCycle (Some key) primary fallback = Fulfilled result
    /\ truthy (result_text result) = true
    /\ Forall (fun s => truthy (title s) = true) (sources result)
    /\ (forall message, primary = Thrown message -> sources result = [])
    /\ (forall response, primary = Fulfilled response ->
          sources result = extractSources (groundingChunks response)).
Proof.
  intros Hkey. unfold analyzeMacroCycle, getAiClient. rewrite Hkey.
  destruct primary as [response | m1].
  - eexists. split; [reflexivity |]. cbn [result_text sources].
    destruct (extractSources_titled (groundingChunks response)) as [Ht _].
    split; [now apply orText_truthy |]. split; [exact Ht |].
    split; [discriminate |]. now intros r [= <-].
  - destruct fallback as [fallbackResponse | m2].
    + eexists. split; [reflexivity |]. cbn [result_text sources].
      split; [now apply orText_truthy |]. split; [apply Forall_nil_2 |].
      split; [reflexivity | discriminate].
    + eexists. split; [reflexivity |]. cbn [result_text sources].
      split; [reflexivity |]. split; [apply Forall_nil_2 |].
      split; [reflexivity | discriminate].
Qed.

(** X18 (the macro analysis always answers, given a key).  With a
    non-empty API key [analyzeMacroCycle] is fulfilled however the two
    service calls settle, its text is never empty, every source has a
    non-empty title, there are at most as many sources as grounding chunks
    and none at all when the first call failed.  Without a key, or with an
    empty one, it throws before any call is made. *)
Theorem analyzeMacroCycle_settles (apiKey : option string)
    (primary fallback : Outcome GenerateContentResponse) :
  (forall key, apiKey = Some key -> truthy key = true ->
     exists result,
       analyzeMacroCycle apiKey primary fallback = Fulfilled result
       /\ truthy (result_text result) = true
       /\ Forall (fun s => truthy (title s) = true) (sources result)
       /\ (forall message, primary = Thrown message -> sources result = [])
       /\ (forall response, primary = Fulfilled response ->
             (length (sources result)
              <= match groundingChunks response with
                 | Some cs => length cs
                 | None => 0
                 end)%nat))
  /\ ((apiKey = None \/ apiKey = Some EmptyString) ->
      analyzeMacroCycle apiKey primary fallback
      = Thrown "API_KEY not found in environment variables").
Proof.
  split.
  - intros key -> Hkey.
    destruct (analyzeMacroCycle_with_key key primary fallback Hkey)
      as (result & Hres & Htext & Htitles & Hnone & Hsome).
    exists result. repeat (split; [assumption |]).
    intros response Hp. rewrite (Hsome response Hp).
    apply extractSources_titled.
  - intros [-> | ->]; reflexivity.
Qed.

Lemma analyzeMacroCycle_settles_witness :
  let reply := {| response_text := Some EmptyString;
                  groundingChunks :=
                    Some [ {| web := None |};
                           {| web := Some {| web_title := None;
                                             web_uri := Some "https://example.org"%string |} |} ] |} in
  truthy "k" = true
  /\ analyzeMacroCycle (Some "k"%string) (Fulfilled reply) (Thrown "unused")
     = Fulfilled
         {| result_text := "Unable to retrieve macro analysis.";
            sources := [ {| title := "Source"; uri := "https://example.org" |} ] |}.
Proof.
  intros reply. split; [reflexivity |].
  destruct (proj1 (analyzeMacroCycle_settles (Some "k"%string) (Fulfilled reply)
                     (Thrown "unused")) "k"%string eq_refl eq_refl)
    as (result & Hres & _).
  rewrite Hres. cbn in Hres. injection Hres as <-. reflexivity.
Defined.


(** ** The theorems on the initial portfolio *)

(** The amounts and scores of [INITIAL_ASSETS] are whole and small. *)
Lemma exactAmounts_initial : exactAmounts INITIAL_HOLDINGS.
Proof.
  split; [| reflexivity].
  repeat constructor;
    [exists 1200000 | exists 450000 | exists 150000 | exists 2000000
     | exists 300000 | exists 250000 | exists 100000];
    (split; [discriminate | reflexivity]).
Qed.

Lemma wholeRisk_initial : Forall wholeRisk INITIAL_HOLDINGS.
Proof.
  repeat constructor;
    [exists 3 | exists 7 | exists 5 | exists 4 | exists 1 | exists 9
     | exists 10]; reflexivity.
Qed.

Lemma riskDistribution_partitions_total_witness :
  exactAmounts INITIAL_HOLDINGS
  /\ (low (riskDistribution INITIAL_HOLDINGS)
      + med (riskDistribution INITIAL_HOLDINGS)
      + high (riskDistribution INITIAL_HOLDINGS)
      == totalValue INITIAL_HOLDINGS)%Q.
Proof.
  split; [exact exactAmounts_initial |].
  pose proof (riskDistribution_partitions_total INITIAL_HOLDINGS) as Hthm.
  cbv zeta in Hthm. exact (proj1 Hthm exactAmounts_initial).
Defined.

Lemma weightedRisk_bounds_witness :
  exactAmounts INITIAL_HOLDINGS
  /\ Forall wholeRisk INITIAL_HOLDINGS
  /\ Forall (fun a => inject_Z 1 <= risk a <= inject_Z 10)%Q INITIAL_HOLDINGS
  /\ 0 <= 1
  /\ (inject_Z 10 * totalValue INITIAL_HOLDINGS < inject_Z (2 ^ 53))%Q
  /\ ~ (totalValue INITIAL_HOLDINGS == 0)%Q
  /\ (inject_Z 1 <= weightedRisk INITIAL_HOLDINGS <= inject_Z 10)%Q.
Proof.
  assert (Forall (fun a => inject_Z 1 <= risk a <= inject_Z 10)%Q
            INITIAL_HOLDINGS) as Hall
    by (repeat constructor; discriminate).
  assert (0 <= 1) as Hlo by lia.
  assert (inject_Z 10 * totalValue INITIAL_HOLDINGS < inject_Z (2 ^ 53))%Q
    as Hsmall by reflexivity.
  assert (~ (totalValue INITIAL_HOLDINGS == 0)%Q) as Hpos by discriminate.
  split; [exact exactAmounts_initial |]. split; [exact wholeRisk_initial |].
  split; [exact Hall |]. split; [exact Hlo |]. split; [exact Hsmall |].
  split; [exact Hpos |].
  exact (proj2 (weightedRisk_bounds INITIAL_HOLDINGS 1 10)
           exactAmounts_initial wholeRisk_initial Hall Hlo Hsmall Hpos).
Defined.


Lemma allocation_sorted_and_complete_witness :
  exactAmounts INITIAL_HOLDINGS
  /\ ~ (totalValue INITIAL_HOLDINGS == 0)%Q
  /\ (sumQ (map share_value (allocationByType INITIAL_HOLDINGS))
      == totalValue INITIAL_HOLDINGS)%Q
  /\ Forall (fun s => 0 <= percentage s <= 1)%Q
       (allocationByType INITIAL_HOLDINGS).
Proof.
  assert (~ (totalValue INITIAL_HOLDINGS == 0)%Q) as Hpos by discriminate.
  split; [exact exactAmounts_initial |]. split; [exact Hpos |].
  pose proof (allocation_sorted_and_complete (fun a => type (held a))
                INITIAL_HOLDINGS) as Hthm.
  cbv zeta in Hthm. destruct Hthm as (_ & _ & _ & _ & Hsum & Hshares).
  split; [exact (Hsum exactAmounts_initial) |].
  exact (Hshares exactAmounts_initial Hpos).
Defined.

Lemma worldMap_shows_each_asset_once_witness :
  exactAmounts INITIAL_HOLDINGS
  /\ (sumQ (map (fun p => snd (fst p)) (worldMapPanels INITIAL_HOLDINGS))
      == totalValue INITIAL_HOLDINGS)%Q.
Proof.
  split; [exact exactAmounts_initial |].
  pose proof (worldMap_shows_each_asset_once INITIAL_HOLDINGS) as Hthm.
  cbv zeta in Hthm. destruct Hthm as (_ & _ & _ & Hsum).
  exact (Hsum exactAmounts_initial).
Defined.

